(** * rerun: retrying a function with interleaved wait periods

    A shallow embedding of the Go package [rerun] (rerun.go, sleep.go, the
    fixed, linear and logarithmic delay algorithms and the error constants),
    followed by the properties of its specification.

    Conventions of the embedding.
    - [time.Duration] is an [int64] count of nanoseconds: a [Z], with the
      wrap-around of [+] and [*] written out ([wrap64]).
    - [uint] is an [N]; the only arithmetic the package does on it is the
      loop increment [i++] under the guard [i < n], which cannot wrap.
    - [float64] is IEEE 754 binary64, as specified by the Standard Library's
      [SpecFloat] at precision 53 and maximal exponent 1024; products and
      sums are rounded one by one (no fused multiply-add).
    - [error] values are compared by [==] against [nil] and the package's
      string constants only, so an error is either a value of the package's
      string type [Error] or a value of another dynamic type.
    - [Execute] runs in a small state monad over a logical clock and an
      event trace; the cancellation context is an oracle telling at which
      instants its [Done] channel is closed. *)

From Stdlib Require Import ZArith NArith List Bool String Lia.
From Stdlib Require Import Floats.SpecFloat.
Import ListNotations.

Open Scope Z_scope.

(** ** Package [time] *)

Module time.

(** [type Duration int64] *)
Definition Duration := Z.

Definition minInt64 : Z := - 2 ^ 63.
Definition maxInt64 : Z := 2 ^ 63 - 1.

(** Two's complement wrap-around of an [int64] result. *)
Definition wrap64 (z : Z) : Z := (z + 2 ^ 63) mod 2 ^ 64 - 2 ^ 63.

Definition Nanosecond : Duration := 1.
Definition Microsecond : Duration := 1000 * Nanosecond.
Definition Millisecond : Duration := 1000 * Microsecond.
Definition Second : Duration := 1000 * Millisecond.
Definition Minute : Duration := 60 * Second.
Definition Hour : Duration := 60 * Minute.

End time.

(** ** [float64] *)

Module float64.

Definition t := spec_float.

Definition prec : Z := 53.
Definition emax : Z := 1024.

Definition mul : t -> t -> t := SFmul prec emax.
Definition add : t -> t -> t := SFadd prec emax.
Definition sub : t -> t -> t := SFsub prec emax.

(** The conversion [float64(z)] of an integer, rounded to nearest even. *)
Definition ofZ (z : Z) : t := binary_normalize prec emax z 0 false.

(** [float64(n)] for [n] of type [uint]. *)
Definition ofUint (n : N) : t := ofZ (Z.of_N n).

(** The value of a finite float with its fraction discarded (rounding
    toward zero); [None] for infinities and NaN. *)
Definition truncate (x : t) : option Z :=
  match x with
  | S754_zero _ => Some 0
  | S754_finite s m e =>
      let mag := match e with
                 | Zneg p => Z.shiftr (Zpos m) (Zpos p)
                 | _ => Z.shiftl (Zpos m) e
                 end in
      Some (if s then - mag else mag)
  | S754_infinity _ | S754_nan => None
  end.

Definition isFinite (x : t) : bool :=
  match x with
  | S754_zero _ | S754_finite _ _ _ => true
  | S754_infinity _ | S754_nan => false
  end.

Section Conversion.

(** Go leaves the result of converting a float that [int64] cannot
    represent to the implementation (amd64 yields [minInt64], arm64
    saturates); it is a parameter of the model. *)
Variable unrepresentable : t -> Z.

(** [int64(x)], and so [time.Duration(x)], for [x] of type [float64]. *)
Definition toInt64 (x : t) : Z :=
  match truncate x with
  | Some z =>
      if (time.minInt64 <=? z) && (z <=? time.maxInt64) then z
      else time.wrap64 (unrepresentable x)
  | None => time.wrap64 (unrepresentable x)
  end.

End Conversion.

End float64.

(** ** errors.go *)

(** A Go [error] value.  [Error s] is a value of the package's
    [type Error string]; [errorString s] stands for a value of any other
    dynamic type (what [errors.New] and [fmt.Errorf] build, the errors of
    package [context]), carrying its message.  An [error] variable holding
    [nil] is [None]. *)
Inductive error : Type :=
| Error (s : string)
| errorString (s : string).

Definition error_eqb (a b : error) : bool :=
  match a, b with
  | Error s, Error s' => String.eqb s s'
  | errorString s, errorString s' => String.eqb s s'
  | _, _ => false
  end.

(** [func (e Error) Error() string], and the message of the other errors. *)
Definition message (e : error) : string :=
  match e with
  | Error s => s
  | errorString s => s
  end.

Definition ErrAttemptsExhausted : error := Error "all attempts exhausted".
Definition ErrDoRetry : error := Error "retry attempt".
Definition ErrNegativeDuration : error := Error "negative duration".
Definition ErrNilAlgorithm : error := Error "nil algorithm".
Definition ErrNoFunction : error := Error "no function defined".
Definition ErrNoLogBase : error := Error "no log base specified".
Definition ErrTooFewIterations : error := Error "too few iterations".

(** ** rerun.go: the [Algorithm] interface and the delay units *)

(** [type delayUnits time.Duration] *)
Definition delayUnits := time.Duration.

Definition Nanosecond : delayUnits := time.Nanosecond.
Definition Microsecond : delayUnits := time.Microsecond.
Definition Millisecond : delayUnits := time.Millisecond.
Definition Second : delayUnits := time.Second.
Definition Minute : delayUnits := time.Minute.
Definition Hour : delayUnits := time.Hour.

(** The method set of the interface; implementations have value receivers
    and no state, so a method is a function of its argument. *)
Record Algorithm : Type := {
  OK : N -> option error;
  Warmup : time.Duration;
  Wait : N -> time.Duration
}.

(** The loop shared by the [OK] methods:
    [for i := uint(1); i < n; i++ { if Wait(i) < 0 { return Err } }],
    started at [i] with [k] iterations to go; [true] when the loop falls
    through. *)
Fixpoint waitsFrom (wait : N -> time.Duration) (i : N) (k : nat) : bool :=
  match k with
  | O => true
  | S k' => if wait i <? 0 then false else waitsFrom wait (N.succ i) k'
  end.

(** The number of iterations of [for i := uint(1); i < n; i++]. *)
Definition iterationsBelow (n : N) : nat := N.to_nat (N.pred n).

(** ** The fixed delay *)

Module FixedDelay.

(** [type FixedDelay time.Duration] *)
Definition t := time.Duration.

Definition OK (fd : t) (_ : N) : option error :=
  if fd <? 0 then Some ErrNegativeDuration else None.

Definition Warmup (_ : t) : time.Duration := 0.

Definition Wait (fd : t) (_ : N) : time.Duration := fd.

Definition algorithm (fd : t) : Algorithm :=
  Build_Algorithm (OK fd) (Warmup fd) (Wait fd).

End FixedDelay.

Definition Fixed1s : FixedDelay.t := time.Second.
Definition Fixed100ms : FixedDelay.t := 100 * time.Millisecond.
Definition Fixed500ms : FixedDelay.t := 500 * time.Millisecond.

(** ** The linear delay *)

Module LinearDelay.

Record t : Type := {
  Start : time.Duration;
  Base : time.Duration;
  Slope : float64.t
}.

Section Methods.

Variable unrepresentable : float64.t -> Z.

(** [time.Duration(ld.Slope*(float64(n)-1)) + ld.Base], zero at [n = 0]. *)
Definition Wait (ld : t) (n : N) : time.Duration :=
  if (n =? 0)%N then 0
  else
    time.wrap64
      (float64.toInt64 unrepresentable
         (float64.mul (Slope ld)
            (float64.sub (float64.ofUint n) (float64.ofZ 1)))
       + Base ld).

Definition OK (ld : t) (n : N) : option error :=
  if Start ld <? 0 then Some ErrNegativeDuration
  else if Wait ld n >=? 0 then None
  else if waitsFrom (Wait ld) 1%N (iterationsBelow n) then None
  else Some ErrNegativeDuration.

Definition Warmup (ld : t) : time.Duration := Start ld.

Definition algorithm (ld : t) : Algorithm :=
  Build_Algorithm (OK ld) (Warmup ld) (Wait ld).

End Methods.

End LinearDelay.

(** ** logarithmic.go *)

Module LogarithmicDelay.

Record t : Type := {
  Start : time.Duration;
  Units : delayUnits;
  Amplifier : float64.t;
  Coefficient : float64.t;
  Modifier : float64.t;
  VerticalOffset : float64.t;
  Denominator : float64.t
}.

Section Methods.

Variable unrepresentable : float64.t -> Z.

(** [math.Log], the natural logarithm of the Go library. *)
Variable mathLog : float64.t -> float64.t.

(** The curve [A*ln(C*n + M) + V] as the code evaluates it. *)
Definition curve (ld : t) (n : N) : float64.t :=
  float64.add
    (float64.mul (Amplifier ld)
       (mathLog
          (float64.add
             (float64.mul (Coefficient ld) (float64.ofUint n))
             (Modifier ld))))
    (VerticalOffset ld).

Definition Wait (ld : t) (n : N) : time.Duration :=
  if (n =? 0)%N then 0
  else
    let d := float64.toInt64 unrepresentable (curve ld n) in
    time.wrap64 (Units ld * d).

(** The wait as the specification words it: for [n >= 1] the unit times
    the integral part of [A*ln(C*n + M) + V], else zero. *)
Definition formula (ld : t) (n : N) : time.Duration :=
  if (1 <=? n)%N then
    time.wrap64
      (Units ld *
       float64.toInt64 unrepresentable
         (float64.add
            (float64.mul (Amplifier ld)
               (mathLog
                  (float64.add
                     (float64.mul (Coefficient ld)
                        (float64.ofUint n))
                     (Modifier ld))))
            (VerticalOffset ld)))
  else 0.

Definition OK (ld : t) (n : N) : option error :=
  if Start ld <? 0 then Some ErrNegativeDuration
  else if waitsFrom (Wait ld) 1%N (iterationsBelow n) then None
  else Some ErrNegativeDuration.

Definition Warmup (ld : t) : time.Duration := Start ld.

Definition algorithm (ld : t) : Algorithm :=
  Build_Algorithm (OK ld) (Warmup ld) (Wait ld).

End Methods.

End LogarithmicDelay.

(** The three implementations of [Algorithm] in the package. *)
Inductive Delay : Type :=
| Fixed (fd : FixedDelay.t)
| Linear (ld : LinearDelay.t)
| Logarithmic (ld : LogarithmicDelay.t).

Definition asAlgorithm (unrepresentable : float64.t -> Z)
    (mathLog : float64.t -> float64.t) (d : Delay) : Algorithm :=
  match d with
  | Fixed fd => FixedDelay.algorithm fd
  | Linear ld => LinearDelay.algorithm unrepresentable ld
  | Logarithmic ld => LogarithmicDelay.algorithm unrepresentable mathLog ld
  end.

(** ** The world [Execute] runs in *)

(** What an execution does that can be observed from outside. *)
Inductive event : Type :=
| EvWarmup                          (* r.algorithm.Warmup() is asked *)
| EvWait (i : N)                    (* r.algorithm.Wait(i) is asked *)
| EvNewTimer (d : time.Duration)    (* newTimer(d) *)
| EvStop                            (* the deferred t.Stop() *)
| EvCall (i : N).                   (* r.function(i) is invoked *)

(** A computation starts at an instant of a logical clock and yields a
    value, the events it emitted and the instant it ends at.  The clock
    advances whenever the goroutine blocks or calls out: in the [select] of
    [sleep] and in the invocation of the function. *)
Definition M (A : Type) : Type := nat -> A * list event * nat.

Definition ret {A} (a : A) : M A := fun t => (a, [], t).

Definition bind {A B} (m : M A) (k : A -> M B) : M B :=
  fun t =>
    let '(a, evs, t1) := m t in
    let '(b, evs', t2) := k a t1 in
    (b, evs ++ evs', t2).

Definition emit (e : event) : M unit := fun t => (tt, [e], t).
Definition tick : M unit := fun t => (tt, [], S t).
Definition now : M nat := fun t => (t, [], t).

Declare Scope exec_scope.
Delimit Scope exec_scope with exec.
Notation "x <- m ;; k" := (bind m (fun x => k))
  (at level 100, m at next level, right associativity) : exec_scope.
Notation "m ;; k" := (bind m (fun _ => k))
  (at level 100, right associativity) : exec_scope.

(** A [context.Context].  [Done t] tells whether the channel [ctx.Done()]
    is closed at instant [t]; [ctxErr] and [Cause] are what [ctx.Err()] and
    [context.Cause(ctx)] return once it is. *)
Record Context : Type := {
  Done : nat -> bool;
  ctxErr : error;
  Cause : error
}.

(** The outcome of a Go call: it returns, or it panics with a value
    (kept as its [%v] rendering). *)
Inductive result (A : Type) : Type :=
| Returns (a : A)
| Panics (v : string).
Arguments Returns {A} a.
Arguments Panics {A} v.

(** [type Func func(uint) error].  Within one run each attempt index is
    passed once, so what a closure does at each call is a function of the
    index. *)
Definition Func : Type := N -> result (option error).

Definition nilDereference : string :=
  "runtime error: invalid memory address or nil pointer dereference".

(** ** rerun.go: the executor and its construction *)

Record Rerun : Type := {
  iterations : N;
  algorithm : option Algorithm;
  function : option Func;
  err : option error
}.

Definition DefaultAlgorithm : Algorithm := FixedDelay.algorithm Fixed1s.

Definition New (i : N) : Rerun :=
  {| iterations := i; algorithm := Some DefaultAlgorithm;
     function := None; err := None |}.

Definition WithAlgorithm (r : Rerun) (algo : option Algorithm) : Rerun :=
  {| iterations := iterations r;
     algorithm := algo;
     function := function r;
     err := match algo with
            | None => Some ErrNilAlgorithm
            | Some a => OK a (iterations r)
            end |}.

Definition WithFunction (r : Rerun) (f : option Func) : Rerun :=
  {| iterations := iterations r; algorithm := algorithm r;
     function := f; err := err r |}.

(** [Err] has a value receiver: its assignment to [r.err] is local.  A
    method call on a nil interface panics. *)
Definition Err (r : Rerun) : result (option error) :=
  match err r with
  | Some e => Returns (Some e)
  | None =>
      match algorithm r with
      | Some a => Returns (OK a (iterations r))
      | None => Panics nilDereference
      end
  end.

(** [runFunction]: the deferred [recover] turns a panic of the function
    into an error built by [fmt.Errorf]. *)
Definition runFunction (r : Rerun) (i : N) : M (option error) :=
  (emit (EvCall i) ;;
   tick ;;
   ret match function r with
       | Some f =>
           match f i with
           | Returns e => e
           | Panics v => Some (errorString ("recovered from panic: " ++ v))
           end
       | None =>
           Some (errorString ("recovered from panic: " ++ nilDereference))
       end)%exec.

(** ** sleep.go and [Execute] *)

Section Runtime.

(** The choice of the runtime when both cases of the [select] in
    [sleep] are ready at an instant: [true] takes the timer. *)
Variable timerFirst : nat -> bool.

Definition sleep (ctx : Context) (d : time.Duration) : M (option error) :=
  if d =? 0 then ret None
  else if d <? 0 then ret (Some ErrNegativeDuration)
  else
    (emit (EvNewTimer d) ;;
     tick ;;
     t <- now ;;
     emit EvStop ;;
     ret (if Done ctx t && negb (timerFirst t)
          then Some (ctxErr ctx) else None))%exec.

(** The loop [for i := uint(0); i < r.iterations; i++] of [Execute], at
    index [i] with [k] iterations to go. *)
Fixpoint attempts (r : Rerun) (a : Algorithm) (ctx : Context)
    (i : N) (k : nat) : M (option error) :=
  match k with
  | O => ret (Some ErrAttemptsExhausted)
  | S k' =>
      (e <- (if (0 <? i)%N
             then (emit (EvWait i) ;; sleep ctx (Wait a i))
             else ret None) ;;
       match e with
       | Some _ => ret e
       | None =>
           e' <- runFunction r i ;;
           match e' with
           | None => ret None
           | Some x =>
               if error_eqb x ErrDoRetry
               then attempts r a ctx (N.succ i) k'
               else ret (Some x)
           end
       end)%exec
  end.

(** [Execute] up to its [return] statements. *)
Definition body (r : Rerun) (ctx : Context) : M (result (option error)) :=
  match function r with
  | None => ret (Returns (Some ErrNoFunction))
  | Some _ =>
      if (iterations r <? 2)%N then ret (Returns (Some ErrTooFewIterations))
      else
        match Err r with
        | Panics v => ret (Panics v)
        | Returns (Some e) => ret (Returns (Some e))
        | Returns None =>
            match algorithm r with
            | None => ret (Panics nilDereference)
            | Some a =>
                (emit EvWarmup ;;
                 e <- sleep ctx (Warmup a) ;;
                 match e with
                 | Some _ => ret (Returns e)
                 | None =>
                     e' <- attempts r a ctx 0%N (N.to_nat (iterations r)) ;;
                     ret (Returns e')
                 end)%exec
            end
        end
  end.

(** [Execute]: the deferred function replaces the returned error by the
    cause of the cancellation when [ctx.Done()] is closed; a panic keeps
    unwinding. *)
Definition Execute (r : Rerun) (ctx : Context) : M (result (option error)) :=
  (res <- body r ctx ;;
   t <- now ;;
   ret match res with
       | Returns e => Returns (if Done ctx t then Some (Cause ctx) else e)
       | Panics v => Panics v
       end)%exec.

End Runtime.

(** ** Traces the statements speak of *)

(** What a sleep that is not refused emits. *)
Definition sleepEvents (d : time.Duration) : list event :=
  if 0 <? d then [EvNewTimer d; EvStop] else [].

(** The attempt indices [i, i+1, ...], [k] of them. *)
Fixpoint indices (i : N) (k : nat) : list N :=
  match k with
  | O => []
  | S k' => i :: indices (N.succ i) k'
  end.

(** The indices of the invocations of the function in a trace, and the
    iterations the algorithm was asked a wait for. *)
Definition calls (evs : list event) : list N :=
  flat_map (fun e => match e with EvCall i => [i] | _ => [] end) evs.

Definition waitsAsked (evs : list event) : list N :=
  flat_map (fun e => match e with EvWait i => [i] | _ => [] end) evs.

(** One retry: the wait is asked for and slept, then the function runs. *)
Definition retryEvents (a : Algorithm) (i : N) : list event :=
  EvWait i :: sleepEvents (Wait a i) ++ [EvCall i].

(** The trace of a run of [n] attempts that all ask for a retry. *)
Definition exhaustedTrace (a : Algorithm) (n : N) : list event :=
  EvWarmup :: sleepEvents (Warmup a) ++
  EvCall 0 :: flat_map (retryEvents a) (indices 1 (iterationsBelow n)).

(** Executors built by [New], [WithAlgorithm] and [WithFunction] record
    an error whenever they have no algorithm. *)
Definition wellFormed (r : Rerun) : Prop :=
  algorithm r = None -> err r <> None.

(** ** Shapes of runs *)

(** What attempt [i] adds to the trace when it is reached and its wait is
    not refused: from the second attempt on the wait is asked for and
    slept, then the function is invoked. *)
Definition attemptEvents (a : Algorithm) (i : N) : list event :=
  (if (0 <? i)%N then EvWait i :: sleepEvents (Wait a i) else []) ++
  [EvCall i].

(** The trace of a run whose attempts [0..k] are all reached. *)
Definition traceThrough (a : Algorithm) (k : N) : list event :=
  EvWarmup :: sleepEvents (Warmup a) ++
  flat_map (attemptEvents a) (indices 0 (S (N.to_nat k))).

(** What attempt [i] yields, as [runFunction] returns it: the error the
    function returns, or the one made from its panic. *)
Definition outcomeAt (r : Rerun) (i : N) : option error :=
  match function r with
  | Some f =>
      match f i with
      | Returns e => e
      | Panics v => Some (errorString ("recovered from panic: " ++ v))
      end
  | None => Some (errorString ("recovered from panic: " ++ nilDereference))
  end.

(** The waits asked and the invocations of a trace, in their order. *)
Definition protocol (evs : list event) : list event :=
  filter (fun e => match e with
                   | EvWait _ | EvCall _ => true
                   | _ => false
                   end) evs.

(** The order in which a run of budget [n] invokes the function and asks
    for waits when nothing stops it: call 0, wait 1, call 1, ... *)
Definition schedule (n : N) : list event :=
  flat_map (fun i => if (0 <? i)%N then [EvWait i; EvCall i] else [EvCall i])
    (indices 0 (N.to_nat n)).

Definition prefixOf {A : Type} (l full : list A) : Prop :=
  exists rest, full = l ++ rest.

(** The timers of a trace: starting with a timer pending or not, [Some]
    tells whether one is pending at the end; [None] when a timer is made
    while another is pending or a stop finds none. *)
Fixpoint pendingTimer (pending : bool) (evs : list event) : option bool :=
  match evs with
  | [] => Some pending
  | EvNewTimer _ :: evs' => if pending then None else pendingTimer true evs'
  | EvStop :: evs' => if pending then pendingTimer false evs' else None
  | _ :: evs' => pendingTimer pending evs'
  end.

(** The zero value of [Rerun], which the exported type lets a client
    declare. *)
Definition zeroRerun : Rerun :=
  {| iterations := 0; algorithm := None; function := None; err := None |}.

(** The executors a client of the package can obtain. *)
Inductive built : Rerun -> Prop :=
| built_zero : built zeroRerun
| built_New (n : N) : built (New n)
| built_WithAlgorithm (r : Rerun) (algo : option Algorithm) :
    built r -> built (WithAlgorithm r algo)
| built_WithFunction (r : Rerun) (f : option Func) :
    built r -> built (WithFunction r f).

(** What [Err] reports for an executor: the verdict of its algorithm on
    its budget, or the lack of an algorithm. *)
Definition verdict (r : Rerun) : option error :=
  match algorithm r with
  | Some a => OK a (iterations r)
  | None => Some ErrNilAlgorithm
  end.

(** The package's error constants. *)
Definition sentinels : list error :=
  [ErrAttemptsExhausted; ErrDoRetry; ErrNegativeDuration; ErrNilAlgorithm;
   ErrNoFunction; ErrNoLogBase; ErrTooFewIterations].

(** ** Sample values *)

(** The linear delay of base -100ns and slope 50. *)
Definition risingFromBelow : LinearDelay.t :=
  {| LinearDelay.Start := 0;
     LinearDelay.Base := -100;
     LinearDelay.Slope := float64.ofZ 50 |}.

(** The linear delay of the package documentation: base 100ms, falling by
    25ms at each iteration. *)
Definition falling : LinearDelay.t :=
  {| LinearDelay.Start := 0;
     LinearDelay.Base := 100 * time.Millisecond;
     LinearDelay.Slope := float64.ofZ (-25000000) |}.

(** A logarithmic delay whose amplifier and coefficient are zero. *)
Definition flat : LogarithmicDelay.t :=
  {| LogarithmicDelay.Start := 0;
     LogarithmicDelay.Units := Millisecond;
     LogarithmicDelay.Amplifier := float64.ofZ 0;
     LogarithmicDelay.Coefficient := float64.ofZ 0;
     LogarithmicDelay.Modifier := float64.ofZ 1;
     LogarithmicDelay.VerticalOffset := float64.ofZ 0;
     LogarithmicDelay.Denominator := float64.ofZ 1 |}.

(** The delay of logarithmic_test.go, and the same with a denominator. *)
Definition tested : LogarithmicDelay.t :=
  {| LogarithmicDelay.Start := 0;
     LogarithmicDelay.Units := Millisecond;
     LogarithmicDelay.Amplifier := float64.ofZ 300;
     LogarithmicDelay.Coefficient := float64.ofZ 20;
     LogarithmicDelay.Modifier := float64.ofZ (-14);
     LogarithmicDelay.VerticalOffset := float64.ofZ (-400);
     LogarithmicDelay.Denominator := float64.ofZ 0 |}.

Definition testedHalved : LogarithmicDelay.t :=
  {| LogarithmicDelay.Start := 0;
     LogarithmicDelay.Units := Millisecond;
     LogarithmicDelay.Amplifier := float64.ofZ 300;
     LogarithmicDelay.Coefficient := float64.ofZ 20;
     LogarithmicDelay.Modifier := float64.ofZ (-14);
     LogarithmicDelay.VerticalOffset := float64.ofZ (-400);
     LogarithmicDelay.Denominator := float64.ofZ 2 |}.

(** The conversion of amd64, which yields the least [int64] for a float
    out of range, and a stand-in for the logarithm that is right at 1. *)
Definition amd64 (_ : float64.t) : Z := time.minInt64.
Definition zeroLog (_ : float64.t) : float64.t := S754_zero false.

(** A runtime that takes the context first whenever it is done. *)
Definition contextFirst (_ : nat) : bool := false.

(** A context that is never done, one that is done from the start, and
    one that is cancelled while the clock goes from 0 to 1. *)
Definition background : Context :=
  {| Done := fun _ => false;
     ctxErr := errorString "context canceled";
     Cause := errorString "context canceled" |}.

Definition cancelled : Context :=
  {| Done := fun _ => true;
     ctxErr := errorString "context canceled";
     Cause := errorString "shutting down" |}.

Definition cancelledAtOne : Context :=
  {| Done := fun t => (1 <=? t)%nat;
     ctxErr := errorString "context canceled";
     Cause := errorString "shutting down" |}.

(** A function that asks for a retry at every call, and one that asks for
    a retry once and panics at its second call. *)
Definition alwaysRetry : Func := fun _ => Returns (Some ErrDoRetry).

Definition panicsAtOne : Func :=
  fun i => if (i =? 1)%N then Panics "index out of range"
           else Returns (Some ErrDoRetry).

Definition panicsAtZero : Func := fun _ => Panics "index out of range".

(** A function that succeeds at its third call. *)
Definition succeedsAtTwo : Func :=
  fun i => if (i <? 2)%N then Returns (Some ErrDoRetry) else Returns None.

(** A linear delay with a warmup of one second and no wait after it. *)
Definition warming : LinearDelay.t :=
  {| LinearDelay.Start := time.Second;
     LinearDelay.Base := 0;
     LinearDelay.Slope := float64.ofZ 0 |}.

(** Executors: the default one with a budget of 3 and a function that
    always asks for a retry; one without delays whose function succeeds
    at its third call; one with the linear delay that starts below zero;
    one with a warmup. *)
Definition retrying3 : Rerun := WithFunction (New 3) (Some alwaysRetry).

Definition patient5 : Rerun :=
  WithFunction (WithAlgorithm (New 5) (Some (FixedDelay.algorithm 0)))
    (Some succeedsAtTwo).

Definition rising4 : Rerun :=
  WithFunction
    (WithAlgorithm (New 4)
       (Some (LinearDelay.algorithm amd64 risingFromBelow)))
    (Some alwaysRetry).

Definition warmed3 : Rerun :=
  WithFunction
    (WithAlgorithm (New 3) (Some (LinearDelay.algorithm amd64 warming)))
    (Some alwaysRetry).

(** * Properties *)

(** ** The validity loop *)

Lemma waitsFrom_spec (wait : N -> time.Duration) (k : nat) :
  forall i : N,
    waitsFrom wait i k = true <->
    (forall j : N, (i <= j < i + N.of_nat k)%N -> 0 <= wait j).
Proof.
  induction k as [|k IH]; intros i; cbn [waitsFrom].
  - split; [intros _ j Hj; lia | reflexivity].
  - destruct (Z.ltb_spec (wait i) 0) as [Hneg | Hpos].
    + split; [discriminate|].
      intros H. specialize (H i). lia.
    + rewrite IH. split; intros H j Hj.
      * destruct (N.eq_dec j i) as [-> | Hne]; [assumption|].
        apply H. lia.
      * apply H. lia.
Qed.

Lemma waitsFrom_checked_range (wait : N -> time.Duration) (n : N) :
  waitsFrom wait 1%N (iterationsBelow n) = true <->
  (forall i : N, (1 <= i < n)%N -> 0 <= wait i).
Proof.
  rewrite waitsFrom_spec. unfold iterationsBelow.
  rewrite N2Nat.id.
  split; intros H i Hi; apply H; lia.
Qed.

(** ** The delay algorithms *)

Section Delays.

Variable unrepresentable : float64.t -> Z.
Variable mathLog : float64.t -> float64.t.

(** A fixed delay that passes [OK] never waits a negative time. *)
Lemma FixedDelay_OK_nonneg (fd : FixedDelay.t) (n i : N) :
FixedDelay.OK fd n = None -> 0 <= FixedDelay.Wait fd i.
Proof.
unfold FixedDelay.OK, FixedDelay.Wait.
destruct (Z.ltb_spec fd 0); [discriminate | auto].
Qed.

(** A logarithmic delay that passes [OK n] waits a non-negative time at
  every iteration of [1..n-1], and its warmup is non-negative. *)
Lemma LogarithmicDelay_OK_nonneg (ld : LogarithmicDelay.t) (n : N) :
LogarithmicDelay.OK unrepresentable mathLog ld n = None ->
0 <= LogarithmicDelay.Start ld /\
forall i : N,
  (1 <= i < n)%N -> 0 <= LogarithmicDelay.Wait unrepresentable mathLog ld i.
Proof.
unfold LogarithmicDelay.OK.
destruct (Z.ltb_spec (LogarithmicDelay.Start ld) 0); [discriminate|].
destruct (waitsFrom _ 1%N (iterationsBelow n)) eqn:Hloop; [|discriminate].
intros _. split; [assumption|].
now apply waitsFrom_checked_range.
Qed.

(** A linear delay that passes [OK] has a warmup that is not negative. *)
Lemma LinearDelay_OK_of_valid_start (ld : LinearDelay.t) (n : N) :
LinearDelay.OK unrepresentable ld n = None -> 0 <= LinearDelay.Start ld.
Proof.
unfold LinearDelay.OK.
destruct (Z.ltb_spec (LinearDelay.Start ld) 0); [discriminate | auto].
Qed.

(** C1, where the code departs from the claim: [LinearDelay.OK] returns
  as soon as the wait computed at [n] itself is non-negative, without
  looking at the iterations below it.  For the line of base -100 and
  slope 50 checked for 4 iterations, [OK] succeeds, yet the waits of
  iterations 1 and 2, both in the checked range, are negative. *)
Theorem LinearDelay_OK_accepts_negative_wait :
LinearDelay.OK unrepresentable risingFromBelow 4%N = None /\
LinearDelay.Wait unrepresentable risingFromBelow 4%N = 50 /\
LinearDelay.Wait unrepresentable risingFromBelow 1%N = -100 /\
LinearDelay.Wait unrepresentable risingFromBelow 2%N = -50.
Proof. repeat split. Qed.

(** C2, as amended: at iteration 0 the linear and the logarithmic delay
  wait zero for every setting of their fields, and the fixed delay,
  which does not look at the iteration, waits its one duration. *)
Theorem Wait_at_zero (d : Delay) :
Wait (asAlgorithm unrepresentable mathLog d) 0%N =
match d with
| Fixed fd => fd
| Linear _ | Logarithmic _ => 0
end.
Proof. destruct d; reflexivity. Qed.

(** C6: a linear delay whose warmup is not negative passes [OK n] exactly
  when the wait computed at [n] is not negative or no wait of the
  iterations [1..n-1] is.  (Nothing is asked of the base or the
  slope.) *)
Theorem LinearDelay_OK_iff (ld : LinearDelay.t) (n : N) :
0 <= LinearDelay.Start ld ->
(LinearDelay.OK unrepresentable ld n = None <->
 0 <= LinearDelay.Wait unrepresentable ld n \/
 forall i : N,
   (1 <= i < n)%N -> 0 <= LinearDelay.Wait unrepresentable ld i).
Proof.
intros HStart. unfold LinearDelay.OK.
destruct (Z.ltb_spec (LinearDelay.Start ld) 0) as [Hlt|_]; [lia|].
destruct (Z.geb_spec (LinearDelay.Wait unrepresentable ld n) 0)
  as [Hlast|Hlast].
- split; [intros _; left; lia | reflexivity].
- rewrite <- waitsFrom_checked_range.
  destruct (waitsFrom (LinearDelay.Wait unrepresentable ld) 1%N
              (iterationsBelow n)).
  + split; [intros _; now right | reflexivity].
  + split; [discriminate|].
    intros [H|H]; [lia | discriminate].
Qed.

(** [OK] reads the [Start] field and the waits only: with no iteration
  to check, any setting of the curve passes. *)
Lemma LogarithmicDelay_OK_without_iterations
  (ld : LogarithmicDelay.t) (n : N) :
0 <= LogarithmicDelay.Start ld -> (n <= 1)%N ->
LogarithmicDelay.OK unrepresentable mathLog ld n = None.
Proof.
intros HStart Hn. unfold LogarithmicDelay.OK.
destruct (Z.ltb_spec (LogarithmicDelay.Start ld) 0); [lia|].
replace (iterationsBelow n) with O; [reflexivity|].
unfold iterationsBelow. lia.
Qed.

(** C7, where the code departs from the claim: [OK] never looks at the
  amplifier or the coefficient.  The delay [flat] has both at zero,
  and [OK] returns nil for it when asked about 0 or 1 iterations. *)
Theorem LogarithmicDelay_OK_accepts_zero_fields :
LogarithmicDelay.Amplifier flat = S754_zero false /\
LogarithmicDelay.Coefficient flat = S754_zero false /\
LogarithmicDelay.OK unrepresentable mathLog flat 0%N = None /\
LogarithmicDelay.OK unrepresentable mathLog flat 1%N = None.
Proof. repeat split. Qed.

(** The same for a budget that [Execute] accepts: wherever the logarithm
  of 1 is finite, the curve of [flat] is constantly zero and [OK]
  passes for 3 iterations. *)
Lemma LogarithmicDelay_OK_flat :
float64.isFinite (mathLog (float64.ofZ 1)) = true ->
LogarithmicDelay.OK unrepresentable mathLog flat 3%N = None /\
LogarithmicDelay.Wait unrepresentable mathLog flat 1%N = 0 /\
LogarithmicDelay.Wait unrepresentable mathLog flat 2%N = 0.
Proof.
intros Hfin.
assert (Hwait : forall i, i = 1%N \/ i = 2%N ->
          LogarithmicDelay.Wait unrepresentable mathLog flat i = 0).
{ intros i [-> | ->]; unfold LogarithmicDelay.Wait,
    LogarithmicDelay.curve; cbn [N.eqb flat LogarithmicDelay.Amplifier
      LogarithmicDelay.Coefficient LogarithmicDelay.Modifier
      LogarithmicDelay.VerticalOffset LogarithmicDelay.Units].
  - change (float64.add (float64.mul (float64.ofZ 0) (float64.ofUint 1))
              (float64.ofZ 1)) with (float64.ofZ 1).
    destruct (mathLog (float64.ofZ 1)) as [s| | |s m e];
      try discriminate; destruct s; reflexivity.
  - change (float64.add (float64.mul (float64.ofZ 0) (float64.ofUint 2))
              (float64.ofZ 1)) with (float64.ofZ 1).
    destruct (mathLog (float64.ofZ 1)) as [s| | |s m e];
      try discriminate; destruct s; reflexivity. }
split; [|split; apply Hwait; auto].
unfold LogarithmicDelay.OK.
change (iterationsBelow 3) with 2%nat.
cbn [waitsFrom flat LogarithmicDelay.Start].
change (N.succ 1) with 2%N.
rewrite !Hwait by auto. reflexivity.
Qed.

End Delays.

(** ** Errors *)

Lemma error_eqb_eq (x y : error) : error_eqb x y = true <-> x = y.
Proof.
  destruct x as [s|s], y as [s'|s']; cbn [error_eqb];
    rewrite ?String.eqb_eq; split; congruence.
Qed.

Lemma error_eqb_refl (x : error) : error_eqb x x = true.
Proof. now apply error_eqb_eq. Qed.

(** ** Computations *)

(** Closes a case in which the run ended, by the equation [H], without
    the invocation assumed to be in its trace. *)
Ltac ended_without_call H := injection H as _ <- _; contradiction.

Lemma bind_inv {A B} (m : M A) (k : A -> M B) (t : nat) b evs t2 :
  bind m k t = (b, evs, t2) ->
  exists a evs1 t1 evs2,
    m t = (a, evs1, t1) /\ k a t1 = (b, evs2, t2) /\ evs = evs1 ++ evs2.
Proof.
  unfold bind. destruct (m t) as [[a evs1] t1].
  destruct (k a t1) as [[b' evs2] t2'] eqn:Hk.
  intros [= <- <- <-]. now exists a, evs1, t1, evs2.
Qed.

Lemma bind_eq {A B} (m : M A) (k : A -> M B) (t : nat) a evs1 t1 :
  m t = (a, evs1, t1) ->
  bind m k t = (let '(b, evs2, t2) := k a t1 in (b, evs1 ++ evs2, t2)).
Proof. unfold bind. now intros ->. Qed.

(** ** The cancellable sleep *)

Section Sleep.

Variable timerFirst : nat -> bool.
Variable ctx : Context.

Lemma sleep_zero (t : nat) : sleep timerFirst ctx 0 t = (None, [], t).
Proof. reflexivity. Qed.

Lemma sleep_negative (d : time.Duration) (t : nat) :
  d < 0 -> sleep timerFirst ctx d t = (Some ErrNegativeDuration, [], t).
Proof.
  intros Hd. unfold sleep.
  destruct (Z.eqb_spec d 0); [lia|].
  destruct (Z.ltb_spec d 0); [reflexivity | lia].
Qed.

Lemma sleep_positive (d : time.Duration) (t : nat) :
  0 < d ->
  sleep timerFirst ctx d t =
  (if Done ctx (S t) && negb (timerFirst (S t))
   then Some (ctxErr ctx) else None,
   [EvNewTimer d; EvStop], S t).
Proof.
  intros Hd. unfold sleep.
  destruct (Z.eqb_spec d 0); [lia|].
  destruct (Z.ltb_spec d 0); [lia | reflexivity].
Qed.

Lemma sleep_events (d : time.Duration) (t : nat) e evs t1 :
  sleep timerFirst ctx d t = (e, evs, t1) -> evs = sleepEvents d.
Proof.
  unfold sleepEvents.
  destruct (Z.ltb_spec 0 d) as [Hpos|Hle].
  - rewrite sleep_positive by assumption. now intros [= _ <- _].
  - destruct (Z.eq_dec d 0) as [-> | Hne].
    + rewrite sleep_zero. now intros [= _ <- _].
    + rewrite sleep_negative by lia. now intros [= _ <- _].
Qed.

Lemma sleep_undisturbed (d : time.Duration) (t : nat) :
  (forall t', Done ctx t' = false) -> 0 <= d ->
  exists t1, sleep timerFirst ctx d t = (None, sleepEvents d, t1).
Proof.
  intros Hnever Hd. unfold sleepEvents.
  destruct (Z.ltb_spec 0 d) as [Hpos|Hle].
  - rewrite sleep_positive by assumption. rewrite Hnever. now exists (S t).
  - replace d with 0 by lia. now exists t.
Qed.

(** C9: a sleep of duration zero returns nil at once, the clock has not
    moved and no timer was made; a sleep of negative duration returns
    the negative-duration error, and does so at once as well. *)
Theorem sleep_zero_or_negative (d : time.Duration) (t : nat) :
  (d = 0 -> sleep timerFirst ctx d t = (None, [], t)) /\
  (d < 0 -> sleep timerFirst ctx d t = (Some ErrNegativeDuration, [], t)).
Proof.
  split.
  - intros ->. apply sleep_zero.
  - apply sleep_negative.
Qed.

(** C10: whatever the context, one that is done already included, a
    sleep of duration zero returns nil: the test on the duration comes
    before the [select] that looks at the context. *)
Theorem sleep_zero_despite_cancellation (t : nat) (e c : error) :
  sleep timerFirst ctx 0 t = (None, [], t) /\
  sleep timerFirst {| Done := fun _ => true; ctxErr := e; Cause := c |} 0 t =
    (None, [], t).
Proof. split; reflexivity. Qed.

End Sleep.

(** ** The executor *)

Lemma calls_app (l l' : list event) : calls (l ++ l') = calls l ++ calls l'.
Proof. apply flat_map_app. Qed.

Lemma waitsAsked_app (l l' : list event) :
  waitsAsked (l ++ l') = waitsAsked l ++ waitsAsked l'.
Proof. apply flat_map_app. Qed.

Lemma calls_sleepEvents (d : time.Duration) : calls (sleepEvents d) = [].
Proof. unfold sleepEvents. now destruct (0 <? d). Qed.

Lemma waitsAsked_sleepEvents (d : time.Duration) : waitsAsked (sleepEvents d) = [].
Proof. unfold sleepEvents. now destruct (0 <? d). Qed.

Lemma calls_retries (a : Algorithm) (k : nat) :
  forall i, calls (flat_map (retryEvents a) (indices i k)) = indices i k.
Proof.
  induction k as [|k IH]; intros i; [reflexivity|].
  cbn [indices flat_map]. rewrite calls_app, IH.
  unfold retryEvents. cbn [calls flat_map app].
  fold (calls (sleepEvents (Wait a i) ++ [EvCall i])).
  now rewrite calls_app, calls_sleepEvents.
Qed.

Lemma waitsAsked_retries (a : Algorithm) (k : nat) :
  forall i, waitsAsked (flat_map (retryEvents a) (indices i k)) = indices i k.
Proof.
  induction k as [|k IH]; intros i; [reflexivity|].
  cbn [indices flat_map]. rewrite waitsAsked_app, IH.
  unfold retryEvents. cbn [waitsAsked flat_map app].
  fold (waitsAsked (sleepEvents (Wait a i) ++ [EvCall i])).
  now rewrite waitsAsked_app, waitsAsked_sleepEvents.
Qed.

Lemma length_indices (k : nat) : forall i, List.length (indices i k) = k.
Proof. induction k as [|k IH]; intros i; cbn; [|rewrite IH]; reflexivity. Qed.

Lemma calls_exhaustedTrace (a : Algorithm) (n : N) :
  (1 <= n)%N -> calls (exhaustedTrace a n) = indices 0 (N.to_nat n).
Proof.
  intros Hn. unfold exhaustedTrace.
  change (calls (EvWarmup :: ?l)) with (calls l).
  rewrite calls_app, calls_sleepEvents. cbn [app].
  change (calls (EvCall 0 :: ?l)) with (0%N :: calls l).
  rewrite calls_retries.
  replace (N.to_nat n) with (S (iterationsBelow n))
    by (unfold iterationsBelow; lia).
  reflexivity.
Qed.

Lemma waitsAsked_exhaustedTrace (a : Algorithm) (n : N) :
  waitsAsked (exhaustedTrace a n) = indices 1 (iterationsBelow n).
Proof.
  unfold exhaustedTrace.
  change (waitsAsked (EvWarmup :: ?l)) with (waitsAsked l).
  rewrite waitsAsked_app, waitsAsked_sleepEvents. cbn [app].
  change (waitsAsked (EvCall 0 :: ?l)) with (waitsAsked l).
  apply waitsAsked_retries.
Qed.

Section Executor.

Variable timerFirst : nat -> bool.
Variable ctx : Context.
Variable r : Rerun.
Variable a : Algorithm.

Lemma runFunction_eq (i : N) (t : nat) :
  runFunction r i t =
  (match function r with
   | Some f =>
       match f i with
       | Returns e => e
       | Panics v => Some (errorString ("recovered from panic: " ++ v))
       end
   | None => Some (errorString ("recovered from panic: " ++ nilDereference))
   end, [EvCall i], S t).
Proof. reflexivity. Qed.

(** The wait that precedes attempt [i] in the loop of [Execute]. *)
Lemma wait_before_attempt (i : N) (t : nat) e evs t1 :
  (if (0 <? i)%N
   then bind (emit (EvWait i)) (fun _ => sleep timerFirst ctx (Wait a i))
   else ret None) t = (e, evs, t1) ->
  calls evs = [].
Proof.
  destruct (0 <? i)%N.
  - intros H. apply bind_inv in H as (u & evs1 & t' & evs2 & He & Hs & ->).
    injection He as _ <- _. apply sleep_events in Hs as ->.
    cbn [app]. apply calls_sleepEvents.
  - now intros [= _ <- _].
Qed.

Lemma wait_before_attempt_undisturbed (i : N) (t : nat) :
  (forall t', Done ctx t' = false) -> (0 < i)%N -> 0 <= Wait a i ->
  exists t1,
    bind (emit (EvWait i)) (fun _ => sleep timerFirst ctx (Wait a i)) t =
    (None, EvWait i :: sleepEvents (Wait a i), t1).
Proof.
  intros Hnever Hi Hw.
  destruct (sleep_undisturbed timerFirst ctx (Wait a i) t Hnever Hw)
    as [t1 Hs].
  exists t1. unfold bind, emit. now rewrite Hs.
Qed.

(** Retries that are all asked for, from attempt [i > 0] on. *)
Lemma attempts_all_retry (f : Func) :
  function r = Some f ->
  (forall i, f i = Returns (Some ErrDoRetry)) ->
  (forall t, Done ctx t = false) ->
  forall (k : nat) (i : N) (t : nat),
    (0 < i)%N ->
    (forall j, (i <= j < i + N.of_nat k)%N -> 0 <= Wait a j) ->
    exists t1,
      attempts timerFirst r a ctx i k t =
      (Some ErrAttemptsExhausted,
       flat_map (retryEvents a) (indices i k), t1).
Proof.
  intros Hf Hretry Hnever.
  induction k as [|k IH]; intros i t Hi Hwaits.
  - now exists t.
  - cbn [attempts indices flat_map].
    replace (0 <? i)%N with true by (symmetry; apply N.ltb_lt; exact Hi).
    destruct (wait_before_attempt_undisturbed i t Hnever Hi) as [t1 Hw];
      [apply Hwaits; lia|].
    rewrite (bind_eq _ _ _ _ _ _ Hw).
    rewrite (bind_eq _ _ _ _ _ _ (runFunction_eq i t1)).
    rewrite Hf, Hretry, error_eqb_refl.
    destruct (IH (N.succ i) (S t1)) as [t2 Hrest]; [lia | intros j Hj; apply Hwaits; lia |].
    rewrite Hrest. exists t2. unfold retryEvents.
    cbn [app]. now rewrite <- app_assoc.
Qed.

(** The same from attempt 0, which no wait precedes. *)
Lemma attempts_all_retry_from_zero (f : Func) :
  function r = Some f ->
  (forall i, f i = Returns (Some ErrDoRetry)) ->
  (forall t, Done ctx t = false) ->
  forall (k : nat) (t : nat),
    (forall j, (1 <= j < 1 + N.of_nat k)%N -> 0 <= Wait a j) ->
    exists t1,
      attempts timerFirst r a ctx 0 (S k) t =
      (Some ErrAttemptsExhausted,
       EvCall 0 :: flat_map (retryEvents a) (indices 1 k), t1).
Proof.
  intros Hf Hretry Hnever k t Hwaits.
  destruct (attempts_all_retry f Hf Hretry Hnever k 1%N (S t)) as [t1 Hrest];
    [lia | assumption |].
  exists t1. cbn [attempts N.ltb N.compare].
  rewrite (bind_eq _ _ _ _ _ _ (eq_refl : ret None t = (None, [], t))).
  rewrite (bind_eq _ _ _ _ _ _ (runFunction_eq 0%N t)).
  rewrite Hf, Hretry, error_eqb_refl.
  change (N.succ 0) with 1%N. now rewrite Hrest.
Qed.

End Executor.

Lemma In_calls (i : N) (evs : list event) : In (EvCall i) evs <-> In i (calls evs).
Proof.
  unfold calls. rewrite in_flat_map. split.
  - intros H. exists (EvCall i). split; [assumption | now left].
  - intros [e [He Hi]]. destruct e; cbn in Hi; try contradiction.
    destruct Hi as [-> | []]. assumption.
Qed.

Section Panic.

Variable timerFirst : nat -> bool.
Variable ctx : Context.
Variable r : Rerun.
Variable f : Func.
Variable i : N.
Variable v : string.
Hypothesis Hfunction : function r = Some f.
Hypothesis Hpanic : f i = Panics v.

(** In the loop, the attempt at which the function panics is the last
    event, the error built from the panic is what the loop yields, and
    the attempts made before it have smaller indices. *)
Lemma attempts_panic (a : Algorithm) (k : nat) :
  forall (i0 : N) (t : nat) e evs t1,
    attempts timerFirst r a ctx i0 k t = (e, evs, t1) ->
    In i (calls evs) ->
    e = Some (errorString ("recovered from panic: " ++ v)) /\
    (i0 <= i)%N /\
    exists pre,
      evs = pre ++ [EvCall i] /\
      forall j, In j (calls pre) -> (i0 <= j < i)%N.
Proof.
  induction k as [|k IH]; intros i0 t e evs t1 Hrun Hin.
  - injection Hrun as _ <- _. contradiction.
  - cbn [attempts] in Hrun.
    apply bind_inv in Hrun as (e0 & evs1 & t' & evs2 & Hwait & Hrest & ->).
    apply wait_before_attempt in Hwait as Hquiet.
    destruct e0 as [x|].
    { injection Hrest as _ <- _.
      rewrite calls_app, Hquiet in Hin. contradiction. }
    apply bind_inv in Hrest as (e' & evs3 & t'' & evs4 & Hcall & Hrest & ->).
    rewrite runFunction_eq, Hfunction in Hcall.
    injection Hcall as <- <- <-.
    rewrite !calls_app, Hquiet in Hin. cbn [app calls flat_map] in Hin.
    destruct (N.eq_dec i0 i) as [-> | Hne].
    + rewrite Hpanic in Hrest. cbn [error_eqb ErrDoRetry] in Hrest.
      injection Hrest as <- <- _.
      split; [reflexivity|]. split; [lia|].
      exists evs1. rewrite app_nil_r. split; [reflexivity|].
      intros j Hj. rewrite Hquiet in Hj. contradiction.
    + destruct Hin as [Heq | Hin]; [contradiction|].
      fold (calls evs4) in Hin.
      destruct (f i0) as [[x|]|w].
      * destruct (error_eqb x ErrDoRetry).
        -- destruct (IH _ _ _ _ _ Hrest Hin) as (-> & Hle & pre & -> & Hpre).
           split; [reflexivity|]. split; [lia|].
           exists (evs1 ++ [EvCall i0] ++ pre).
           split; [now rewrite <- !app_assoc|].
           intros j Hj. rewrite !calls_app, Hquiet in Hj.
           cbn [app calls flat_map] in Hj.
           destruct Hj as [<- | Hj]; [lia|].
           apply Hpre in Hj. lia.
        -- ended_without_call Hrest.
      * ended_without_call Hrest.
      * ended_without_call Hrest.
Qed.

End Panic.

Section Execute.

Variable timerFirst : nat -> bool.
Variable ctx : Context.
Variable r : Rerun.

Lemma body_returns (t0 : nat) :
  wellFormed r ->
  exists e evs t1, body timerFirst r ctx t0 = (Returns e, evs, t1).
Proof.
  intros Hwf. unfold body.
  destruct (function r) as [f|]; [|now eexists _, _, _].
  destruct (iterations r <? 2)%N; [now eexists _, _, _|].
  unfold Err. destruct (err r) as [e|] eqn:Herr; [now eexists _, _, _|].
  destruct (algorithm r) as [a|] eqn:Halg; [|now destruct Hwf].
  destruct (OK a (iterations r)); [now eexists _, _, _|].
  unfold bind, emit.
  destruct (sleep timerFirst ctx (Warmup a) t0) as [[[x|] evs] t1];
    [now eexists _, _, _|].
  destruct (attempts timerFirst r a ctx 0 _ t1) as [[e' evs'] t2].
  now eexists _, _, _.
Qed.

(** [Execute] returns for every executor the package can build. *)
Lemma Execute_returns (t0 : nat) :
  wellFormed r ->
  exists e evs t1, Execute timerFirst r ctx t0 = (Returns e, evs, t1).
Proof.
  intros Hwf. destruct (body_returns t0 Hwf) as (e & evs & t1 & Hbody).
  unfold Execute. rewrite (bind_eq _ _ _ _ _ _ Hbody).
  cbv [bind now ret]. now eexists _, _, _.
Qed.

(** C4: whichever way [Execute] comes to return, when the context is
    done at that instant the error returned is the cause of the
    cancellation; otherwise it is the error the body returned. *)
Theorem Execute_cancellation_supersedes (t0 : nat) e evs t1 :
  Execute timerFirst r ctx t0 = (Returns e, evs, t1) ->
  exists e0,
    body timerFirst r ctx t0 = (Returns e0, evs, t1) /\
    (Done ctx t1 = true -> e = Some (Cause ctx)) /\
    (Done ctx t1 = false -> e = e0).
Proof.
  unfold Execute. intros H.
  apply bind_inv in H as (res & evs1 & t' & evs2 & Hbody & Hrest & ->).
  cbv [bind now ret] in Hrest.
  injection Hrest as Hres <- <-.
  destruct res as [e0|w]; [|discriminate].
  injection Hres as <-.
  exists e0. rewrite app_nil_r. split; [assumption|].
  split; intros ->; reflexivity.
Qed.

(** C3: with a function attached that asks for a retry at every call, a
    budget [n >= 2], an algorithm that passes [OK n] and whose warmup and
    waits for [1..n-1] are not negative, and a context that is never
    done, [Execute] returns the attempts-exhausted error.  Its trace is
    the warmup, attempt 0, and then for [i = 1..n-1] in order the wait
    asked with [i], slept, and attempt [i]: [n] invocations and [n-1]
    waits. *)
Theorem Execute_attempts_exhausted (a : Algorithm) (f : Func) (t0 : nat) :
  function r = Some f ->
  (2 <= iterations r)%N ->
  algorithm r = Some a ->
  err r = None ->
  OK a (iterations r) = None ->
  0 <= Warmup a ->
  (forall i, (1 <= i < iterations r)%N -> 0 <= Wait a i) ->
  (forall t, Done ctx t = false) ->
  (forall i, f i = Returns (Some ErrDoRetry)) ->
  exists evs t1,
    Execute timerFirst r ctx t0 =
      (Returns (Some ErrAttemptsExhausted), evs, t1) /\
    evs = exhaustedTrace a (iterations r) /\
    calls evs = indices 0 (N.to_nat (iterations r)) /\
    waitsAsked evs = indices 1 (N.to_nat (iterations r) - 1).
Proof.
  intros Hf Hn Ha Herr HOK Hwarm Hwaits Hnever Hretry.
  exists (exhaustedTrace a (iterations r)).
  assert (Hrun : exists t1, body timerFirst r ctx t0 =
            (Returns (Some ErrAttemptsExhausted),
             exhaustedTrace a (iterations r), t1)).
  { unfold body. rewrite Hf.
    replace (iterations r <? 2)%N with false
      by (symmetry; apply N.ltb_ge; exact Hn).
    unfold Err. rewrite Herr, Ha, HOK.
    destruct (sleep_undisturbed timerFirst ctx (Warmup a) t0 Hnever Hwarm)
      as [t1 Hsleep].
    replace (N.to_nat (iterations r)) with (S (iterationsBelow (iterations r)))
      by (unfold iterationsBelow; lia).
    destruct (attempts_all_retry_from_zero timerFirst ctx r a f Hf Hretry
                Hnever (iterationsBelow (iterations r)) t1) as [t2 Hloop].
    { intros j Hj. apply Hwaits. unfold iterationsBelow in Hj. lia. }
    exists t2. unfold bind at 1. unfold emit.
    rewrite (bind_eq _ _ _ _ _ _ Hsleep).
    rewrite (bind_eq _ _ _ _ _ _ Hloop).
    unfold ret, exhaustedTrace. cbn [app]. rewrite app_nil_r.
    reflexivity. }
  destruct Hrun as [t1 Hbody]. exists t1.
  split; [|split; [reflexivity|split]].
  - unfold Execute. rewrite (bind_eq _ _ _ _ _ _ Hbody).
    cbv [bind now ret]. rewrite Hnever, !app_nil_r. reflexivity.
  - apply calls_exhaustedTrace. lia.
  - rewrite waitsAsked_exhaustedTrace. unfold iterationsBelow.
    f_equal. lia.
Qed.

(** C5, as amended: when the function is invoked at attempt [i] and
    panics there, [Execute] returns; the error it returns carries the
    description of the panic, unless the context is done at that
    instant, in which case it is the cause of the cancellation; and the
    invocation at [i] is the last event of the run, the invocations
    before it being those of smaller indices. *)
Theorem Execute_panic_is_terminal (f : Func) (i : N) (v : string)
    (t0 : nat) res evs t1 :
  function r = Some f ->
  f i = Panics v ->
  Execute timerFirst r ctx t0 = (res, evs, t1) ->
  In (EvCall i) evs ->
  res = Returns (Some (if Done ctx t1 then Cause ctx
                       else errorString ("recovered from panic: " ++ v))) /\
  exists pre,
    evs = pre ++ [EvCall i] /\
    forall j, In (EvCall j) pre -> (j < i)%N.
Proof.
  intros Hf Hpanic Hrun Hin.
  unfold Execute in Hrun.
  apply bind_inv in Hrun as (res0 & evs1 & t' & evs2 & Hbody & Hrest & ->).
  cbv [bind now ret] in Hrest. injection Hrest as <- <- <-.
  rewrite app_nil_r in Hin |- *. apply In_calls in Hin.
  assert (Hloop : res0 = Returns (Some (errorString ("recovered from panic: " ++ v))) /\
                  exists pre, evs1 = pre ++ [EvCall i] /\
                    forall j, In j (calls pre) -> (j < i)%N).
  { unfold body in Hbody. rewrite Hf in Hbody.
    destruct (iterations r <? 2)%N.
    { ended_without_call Hbody. }
    destruct (Err r) as [[e|]|w].
    { ended_without_call Hbody. }
    2:{ ended_without_call Hbody. }
    destruct (algorithm r) as [a|].
    2:{ ended_without_call Hbody. }
    apply bind_inv in Hbody as (u & evs0 & t2 & evs3 & Hemit & Hbody & ->).
    injection Hemit as _ <- <-.
    apply bind_inv in Hbody as (e & evs4 & t3 & evs5 & Hsleep & Hbody & ->).
    apply sleep_events in Hsleep as ->.
    cbn [app] in Hin. change (calls (EvWarmup :: ?l)) with (calls l) in Hin.
    rewrite calls_app, calls_sleepEvents in Hin. cbn [app] in Hin.
    destruct e as [x|].
    { ended_without_call Hbody. }
    apply bind_inv in Hbody as (e' & evs6 & t4 & evs7 & Hatt & Hret & ->).
    injection Hret as <- <- _. rewrite app_nil_r in Hin |- *.
    destruct (attempts_panic timerFirst ctx r f i v Hf Hpanic a _ _ _ _ _ _
                Hatt Hin) as (-> & _ & pre & -> & Hpre).
    split; [reflexivity|].
    exists (EvWarmup :: sleepEvents (Warmup a) ++ pre).
    split; [cbn [app]; now rewrite <- app_assoc|].
    intros j Hj. change (calls (EvWarmup :: ?l)) with (calls l) in Hj.
    rewrite calls_app, calls_sleepEvents in Hj. apply Hpre in Hj. lia. }
  destruct Hloop as (-> & pre & -> & Hpre).
  split.
  - now destruct (Done ctx t').
  - exists pre. split; [reflexivity|].
    intros j Hj. apply Hpre. now apply In_calls.
Qed.

End Execute.

Lemma wellFormed_New (n : N) : wellFormed (New n).
Proof. discriminate. Qed.

Lemma wellFormed_WithAlgorithm (r : Rerun) (algo : option Algorithm) :
  wellFormed (WithAlgorithm r algo).
Proof. unfold wellFormed. cbn. intros ->. discriminate. Qed.

Lemma wellFormed_WithFunction (r : Rerun) (f : option Func) :
  wellFormed r -> wellFormed (WithFunction r f).
Proof. auto. Qed.

(** ** The logarithmic curve *)

Section Logarithmic.

Variable unrepresentable : float64.t -> Z.
Variable mathLog : float64.t -> float64.t.

(** C8: two logarithmic delays that differ in the [Denominator] field
    at most wait the same time at every iteration, and that time is the
    one of the formula, in which the denominator does not occur. *)
Theorem Wait_ignores_Denominator (ld ld' : LogarithmicDelay.t) (n : N) :
  LogarithmicDelay.Start ld = LogarithmicDelay.Start ld' ->
  LogarithmicDelay.Units ld = LogarithmicDelay.Units ld' ->
  LogarithmicDelay.Amplifier ld = LogarithmicDelay.Amplifier ld' ->
  LogarithmicDelay.Coefficient ld = LogarithmicDelay.Coefficient ld' ->
  LogarithmicDelay.Modifier ld = LogarithmicDelay.Modifier ld' ->
  LogarithmicDelay.VerticalOffset ld = LogarithmicDelay.VerticalOffset ld' ->
  LogarithmicDelay.Wait unrepresentable mathLog ld n =
    LogarithmicDelay.Wait unrepresentable mathLog ld' n /\
  LogarithmicDelay.Wait unrepresentable mathLog ld n = LogarithmicDelay.formula unrepresentable mathLog ld n.
Proof.
  intros _ HU HA HC HM HV.
  assert (Hformula : forall l,
            LogarithmicDelay.Wait unrepresentable mathLog l n = LogarithmicDelay.formula unrepresentable mathLog l n).
  { intros l. unfold LogarithmicDelay.Wait, LogarithmicDelay.formula,
      LogarithmicDelay.curve.
    destruct (N.eqb_spec n 0) as [-> | Hn]; [reflexivity|].
    destruct (N.leb_spec 1 n); [reflexivity | lia]. }
  split; [|apply Hformula].
  rewrite !Hformula. unfold LogarithmicDelay.formula.
  now rewrite HU, HA, HC, HM, HV.
Qed.

End Logarithmic.

(** ** Sample runs *)

(** The line of the package documentation: fine for 5 iterations, where
    the last wait is 25ms, refused for 7, where the wait of iteration 6
    would be -25ms. *)
Example falling_line :
  LinearDelay.OK amd64 falling 5%N = None /\
  LinearDelay.Wait amd64 falling 4%N = 25 * time.Millisecond /\
  LinearDelay.OK amd64 falling 7%N = Some ErrNegativeDuration /\
  LinearDelay.Wait amd64 falling 6%N = -25 * time.Millisecond.
Proof. repeat split. Qed.

(** A function that succeeds at its third call, with a budget of 5 and no
    delay: three invocations, then nil. *)
Example Execute_succeeds_at_third_call :
  Execute contextFirst
    (WithFunction (WithAlgorithm (New 5) (Some (FixedDelay.algorithm 0)))
       (Some (fun i => if (i <? 2)%N then Returns (Some ErrDoRetry)
                       else Returns None)))
    background 0%nat =
  (Returns None, [EvWarmup; EvCall 0; EvWait 1; EvCall 1; EvWait 2; EvCall 2],
   3%nat).
Proof. reflexivity. Qed.

(** The checks that come before any wait or attempt. *)
Example Execute_without_function :
  Execute contextFirst (New 3) background 0%nat =
  (Returns (Some ErrNoFunction), [], 0%nat).
Proof. reflexivity. Qed.

Example Execute_with_one_iteration :
  Execute contextFirst (WithFunction (New 1) (Some alwaysRetry))
    background 0%nat =
  (Returns (Some ErrTooFewIterations), [], 0%nat).
Proof. reflexivity. Qed.

Example Execute_with_nil_algorithm :
  Execute contextFirst
    (WithFunction (WithAlgorithm (New 3) None) (Some alwaysRetry))
    background 0%nat =
  (Returns (Some ErrNilAlgorithm), [], 0%nat).
Proof. reflexivity. Qed.

(** Under a context that is done, each of them gives way to the cause of
    the cancellation, and so does a success. *)
Example Execute_without_function_cancelled :
  Execute contextFirst (New 3) cancelled 0%nat =
  (Returns (Some (errorString "shutting down")), [], 0%nat).
Proof. reflexivity. Qed.

Example Execute_success_cancelled :
  Execute contextFirst (WithFunction (New 3) (Some (fun _ => Returns None)))
    cancelled 0%nat =
  (Returns (Some (errorString "shutting down")), [EvWarmup; EvCall 0], 1%nat).
Proof. reflexivity. Qed.

(** ** The statements at sample values *)

(** C2, as first stated, fails: the fixed delay of one second waits one
    second at iteration 0. *)
Lemma FixedDelay_Wait_at_zero_is_not_zero :
  Wait (asAlgorithm amd64 zeroLog (Fixed Fixed1s)) 0%N = time.Second /\
  Wait (asAlgorithm amd64 zeroLog (Fixed Fixed1s)) 0%N <> 0.
Proof. split; [reflexivity | discriminate]. Qed.

(** C5, as first stated, fails: the function panics at its first call
    while the context is cancelled, and [Execute] returns the cause of the
    cancellation, which says nothing of the panic. *)
Lemma Execute_panic_under_cancellation :
  panicsAtZero 0%N = Panics "index out of range" /\
  Execute contextFirst (WithFunction (New 3) (Some panicsAtZero))
    cancelledAtOne 0%nat =
    (Returns (Some (errorString "shutting down")),
     [EvWarmup; EvCall 0], 1%nat) /\
  errorString "shutting down" <>
    errorString ("recovered from panic: " ++ "index out of range").
Proof. repeat split. discriminate. Qed.

(** With no warmup, a context that is done from the start does not keep
    [Execute] from invoking the function once: the cancellation is first
    seen by the sleep before attempt 1. *)
Lemma Execute_first_attempt_under_cancellation :
  Execute contextFirst (WithFunction (New 3) (Some alwaysRetry))
    cancelled 0%nat =
    (Returns (Some (errorString "shutting down")),
     [EvWarmup; EvCall 0; EvWait 1; EvNewTimer time.Second; EvStop], 2%nat).
Proof. reflexivity. Qed.

Lemma Execute_attempts_exhausted_witness :
  exists evs t1,
    Execute contextFirst (WithFunction (New 3) (Some alwaysRetry))
      background 0%nat =
      (Returns (Some ErrAttemptsExhausted), evs, t1) /\
    evs = [EvWarmup; EvCall 0;
           EvWait 1; EvNewTimer time.Second; EvStop; EvCall 1;
           EvWait 2; EvNewTimer time.Second; EvStop; EvCall 2] /\
    calls evs = [0; 1; 2]%N /\
    waitsAsked evs = [1; 2]%N.
Proof.
  apply (Execute_attempts_exhausted contextFirst background
           (WithFunction (New 3) (Some alwaysRetry))
           DefaultAlgorithm alwaysRetry 0%nat);
    try reflexivity; intros; vm_compute; discriminate.
Defined.

Lemma Execute_cancellation_supersedes_witness :
  Execute contextFirst (WithFunction (New 3) (Some alwaysRetry))
    cancelledAtOne 0%nat =
    (Returns (Some (errorString "shutting down")),
     [EvWarmup; EvCall 0; EvWait 1; EvNewTimer time.Second; EvStop], 2%nat) /\
  exists e0,
    body contextFirst (WithFunction (New 3) (Some alwaysRetry))
      cancelledAtOne 0%nat =
      (Returns e0,
       [EvWarmup; EvCall 0; EvWait 1; EvNewTimer time.Second; EvStop],
       2%nat) /\
    (Done cancelledAtOne 2 = true ->
     Some (errorString "shutting down") = Some (Cause cancelledAtOne)) /\
    (Done cancelledAtOne 2 = false ->
     Some (errorString "shutting down") = e0).
Proof.
  split; [reflexivity|].
  apply (Execute_cancellation_supersedes contextFirst cancelledAtOne
           (WithFunction (New 3) (Some alwaysRetry)) 0%nat).
  reflexivity.
Defined.

Lemma Execute_panic_is_terminal_witness :
  Execute contextFirst (WithFunction (New 3) (Some panicsAtOne))
    background 0%nat =
    (Returns (Some (errorString "recovered from panic: index out of range")),
     [EvWarmup; EvCall 0; EvWait 1; EvNewTimer time.Second; EvStop; EvCall 1],
     3%nat) /\
  exists pre,
    [EvWarmup; EvCall 0; EvWait 1; EvNewTimer time.Second; EvStop; EvCall 1] =
      pre ++ [EvCall 1] /\
    forall j, In (EvCall j) pre -> (j < 1)%N.
Proof.
  split; [reflexivity|].
  apply (Execute_panic_is_terminal contextFirst background
           (WithFunction (New 3) (Some panicsAtOne))
           panicsAtOne 1%N "index out of range" 0%nat
           (Returns (Some (errorString "recovered from panic: index out of range")))
           _ 3%nat).
  - reflexivity.
  - reflexivity.
  - reflexivity.
  - simpl. auto 10.
Defined.

Lemma LinearDelay_OK_iff_witness :
  0 <= LinearDelay.Start falling /\
  (LinearDelay.OK amd64 falling 5%N = None <->
   0 <= LinearDelay.Wait amd64 falling 5%N \/
   forall i : N, (1 <= i < 5)%N -> 0 <= LinearDelay.Wait amd64 falling i).
Proof.
  split; [vm_compute; discriminate|].
  apply (LinearDelay_OK_iff amd64 falling 5%N).
  vm_compute. discriminate.
Defined.

Lemma Wait_ignores_Denominator_witness :
  LogarithmicDelay.Denominator tested <>
    LogarithmicDelay.Denominator testedHalved /\
  LogarithmicDelay.Wait amd64 zeroLog tested 3%N =
    LogarithmicDelay.Wait amd64 zeroLog testedHalved 3%N /\
  LogarithmicDelay.Wait amd64 zeroLog tested 3%N =
    LogarithmicDelay.formula amd64 zeroLog tested 3%N.
Proof.
  split; [discriminate|].
  apply (Wait_ignores_Denominator amd64 zeroLog tested testedHalved 3%N);
    reflexivity.
Defined.

Lemma sleep_zero_or_negative_witness :
  sleep contextFirst cancelled 0 0%nat = (None, [], 0%nat) /\
  sleep contextFirst cancelled (-5) 0%nat =
    (Some ErrNegativeDuration, [], 0%nat).
Proof.
  split.
  - apply (sleep_zero_or_negative contextFirst cancelled 0 0%nat).
    reflexivity.
  - apply (sleep_zero_or_negative contextFirst cancelled (-5) 0%nat).
    reflexivity.
Defined.

(** * Further properties of the code *)

(** ** The error constants *)

(** X21. The seven error constants of the package are pairwise different, so
    a comparison with [==] tells them apart. *)
Theorem sentinels_distinct : NoDup sentinels.
Proof.
  unfold sentinels.
  repeat (constructor; [cbn; intuition discriminate|]).
  constructor.
Qed.

(** ** The cancellable sleep, case by case *)

(** The ways a sleep ends. *)
Lemma sleep_cases (timerFirst : nat -> bool) (ctx : Context)
    (d : time.Duration) (t : nat) e evs t1 :
  sleep timerFirst ctx d t = (e, evs, t1) ->
  (e = None /\ 0 <= d /\ evs = sleepEvents d) \/
  (e = Some ErrNegativeDuration /\ d < 0 /\ evs = [] /\ t1 = t) \/
  (e = Some (ctxErr ctx) /\ 0 < d /\ Done ctx t1 = true /\
   evs = [EvNewTimer d; EvStop] /\ t1 = S t).
Proof.
  destruct (Z.lt_trichotomy d 0) as [Hneg | [-> | Hpos]].
  - rewrite sleep_negative by assumption. intros [= <- <- <-].
    right. left. auto.
  - rewrite sleep_zero. intros [= <- <- <-]. left. split; [reflexivity|]. split; [lia | reflexivity].
  - rewrite sleep_positive by assumption.
    destruct (Done ctx (S t)) eqn:HDone; cbn [andb].
    + destruct (timerFirst (S t)); cbn [negb]; intros [= <- <- <-].
      * left. unfold sleepEvents.
        replace (0 <? d) with true by (symmetry; now apply Z.ltb_lt).
        split; [reflexivity|]. split; [lia | reflexivity].
      * right. right. auto.
    + intros [= <- <- <-]. left. unfold sleepEvents.
      replace (0 <? d) with true by (symmetry; now apply Z.ltb_lt).
      split; [reflexivity|]. split; [lia | reflexivity].
Qed.

(** X14. A sleep returns nil, the negative-duration error or the error of the
    context, and nothing else.  It refuses a negative duration at once;
    it returns the error of the context only when the context is done at
    the instant it returns and the duration was positive, and by then
    the timer it made has been stopped. *)
Theorem sleep_outcomes (timerFirst : nat -> bool) (ctx : Context)
    (d : time.Duration) (t : nat) e evs t1 :
  sleep timerFirst ctx d t = (e, evs, t1) ->
  (e = None /\ 0 <= d /\ evs = sleepEvents d) \/
  (e = Some ErrNegativeDuration /\ d < 0 /\ evs = [] /\ t1 = t) \/
  (e = Some (ctxErr ctx) /\ 0 < d /\ Done ctx t1 = true /\
   evs = [EvNewTimer d; EvStop] /\ t1 = S t).
Proof. apply sleep_cases. Qed.

(** ** The delay algorithms *)

Lemma wrap64_small (z : Z) :
  time.minInt64 <= z <= time.maxInt64 -> time.wrap64 z = z.
Proof.
  unfold time.minInt64, time.maxInt64, time.wrap64. intros Hz.
  rewrite Z.mod_small; lia.
Qed.

Section MoreDelays.

Variable unrepresentable : float64.t -> Z.
Variable mathLog : float64.t -> float64.t.

(** X18. A fixed or logarithmic delay that passes [OK n] waits no negative
    time at the iterations [1..n-1]. *)
Theorem OK_contract_of_fixed_and_logarithmic (d : Delay) (n i : N) :
  (forall ld, d <> Linear ld) ->
  OK (asAlgorithm unrepresentable mathLog d) n = None ->
  (1 <= i < n)%N ->
  0 <= Wait (asAlgorithm unrepresentable mathLog d) i.
Proof.
  intros Hd HOK Hi. destruct d as [fd | ld | ld].
  - apply (FixedDelay_OK_nonneg fd n i). exact HOK.
  - now destruct (Hd ld).
  - apply (LogarithmicDelay_OK_nonneg unrepresentable mathLog ld n); assumption.
Qed.

(** X19. Each of the three delays that passes [OK] has a warmup that is not
    negative, so the warmup sleep of [Execute] does not refuse it. *)
Theorem OK_warmup_nonneg (d : Delay) (n : N) :
  OK (asAlgorithm unrepresentable mathLog d) n = None ->
  0 <= Warmup (asAlgorithm unrepresentable mathLog d).
Proof.
  destruct d as [fd | ld | ld]; cbn [asAlgorithm].
  - intros _. apply Z.le_refl.
  - exact (LinearDelay_OK_of_valid_start unrepresentable ld n).
  - intros H.
    now destruct (LogarithmicDelay_OK_nonneg unrepresentable mathLog ld n H).
Qed.

(** X15. [LogarithmicDelay.OK n] succeeds exactly when the warmup is not
    negative and no wait of the iterations [1..n-1] is. *)
Theorem LogarithmicDelay_OK_iff (ld : LogarithmicDelay.t) (n : N) :
  LogarithmicDelay.OK unrepresentable mathLog ld n = None <->
  0 <= LogarithmicDelay.Start ld /\
  forall i : N,
    (1 <= i < n)%N -> 0 <= LogarithmicDelay.Wait unrepresentable mathLog ld i.
Proof.
  split; [apply LogarithmicDelay_OK_nonneg|].
  intros [HStart Hwaits]. unfold LogarithmicDelay.OK.
  destruct (Z.ltb_spec (LogarithmicDelay.Start ld) 0); [lia|].
  apply waitsFrom_checked_range in Hwaits. now rewrite Hwaits.
Qed.

(** X16. A logarithmic delay that is valid for [n] iterations is valid for
    every smaller number of them. *)
Theorem LogarithmicDelay_OK_downward (ld : LogarithmicDelay.t) (n m : N) :
  (m <= n)%N ->
  LogarithmicDelay.OK unrepresentable mathLog ld n = None ->
  LogarithmicDelay.OK unrepresentable mathLog ld m = None.
Proof.
  intros Hm HOK.
  destruct (LogarithmicDelay_OK_nonneg unrepresentable mathLog ld n HOK)
    as [HStart Hwaits].
  unfold LogarithmicDelay.OK.
  destruct (Z.ltb_spec (LogarithmicDelay.Start ld) 0); [lia|].
  assert (Hloop : waitsFrom (LogarithmicDelay.Wait unrepresentable mathLog ld)
                    1%N (iterationsBelow m) = true).
  { apply waitsFrom_checked_range. intros i Hi. apply Hwaits. lia. }
  now rewrite Hloop.
Qed.

(** X17. A logarithmic delay whose [Units] field is left at zero waits zero
    at every iteration, whatever its curve, and passes [OK] for every
    number of iterations as soon as its warmup is not negative. *)
Theorem LogarithmicDelay_without_units (ld : LogarithmicDelay.t) (n : N) :
  LogarithmicDelay.Units ld = 0 ->
  LogarithmicDelay.Wait unrepresentable mathLog ld n = 0 /\
  (0 <= LogarithmicDelay.Start ld ->
   LogarithmicDelay.OK unrepresentable mathLog ld n = None).
Proof.
  intros HU.
  assert (Hwait : forall i,
            LogarithmicDelay.Wait unrepresentable mathLog ld i = 0).
  { intros i. unfold LogarithmicDelay.Wait. rewrite HU.
    destruct (i =? 0)%N; reflexivity. }
  split; [apply Hwait|].
  intros HStart. unfold LogarithmicDelay.OK.
  destruct (Z.ltb_spec (LogarithmicDelay.Start ld) 0); [lia|].
  assert (Hloop : waitsFrom (LogarithmicDelay.Wait unrepresentable mathLog ld)
                    1%N (iterationsBelow n) = true).
  { apply waitsFrom_checked_range. intros i _. rewrite Hwait. lia. }
  now rewrite Hloop.
Qed.

(** X20. For a linear delay with a finite slope the wait before the first
    retry is the base. *)
Theorem LinearDelay_first_wait (ld : LinearDelay.t) :
  float64.isFinite (LinearDelay.Slope ld) = true ->
  time.minInt64 <= LinearDelay.Base ld <= time.maxInt64 ->
  LinearDelay.Wait unrepresentable ld 1%N = LinearDelay.Base ld.
Proof.
  intros Hfin HBase. unfold LinearDelay.Wait. cbn [N.eqb].
  change (float64.sub (float64.ofUint 1) (float64.ofZ 1))
    with (S754_zero false).
  assert (Hmul : float64.toInt64 unrepresentable
                   (float64.mul (LinearDelay.Slope ld) (S754_zero false)) = 0).
  { destruct (LinearDelay.Slope ld) as [s| | |s m e];
      try discriminate; reflexivity. }
  rewrite Hmul. now apply wrap64_small.
Qed.

End MoreDelays.

(** ** The construction of executors *)

(** X13. The methods that configure an executor compose: the algorithm given
    last is the one attached, and the error recorded for an earlier one
    (a nil algorithm, say) is replaced by its verdict; attaching a
    function and attaching an algorithm commute; the budget is the one
    given to [New]. *)
Theorem configuration_composes (r : Rerun) (x y : option Algorithm)
    (f g : option Func) :
  WithAlgorithm (WithAlgorithm r x) y = WithAlgorithm r y /\
  WithFunction (WithFunction r f) g = WithFunction r g /\
  WithFunction (WithAlgorithm r x) f = WithAlgorithm (WithFunction r f) x /\
  iterations (WithFunction (WithAlgorithm r x) f) = iterations r.
Proof. repeat split. Qed.

(** What [Err] can panic on: an executor with neither algorithm nor
    recorded error.  Among the executors a client can obtain only those
    of budget zero are such. *)
Lemma built_invariant (r : Rerun) :
  built r ->
  (algorithm r = None /\ err r = None /\ iterations r = 0%N) \/
  Err r = Returns (verdict r).
Proof.
  induction 1 as [| n | r algo _ _ | r f _ IH].
  - left. auto.
  - right. reflexivity.
  - right. unfold Err, verdict. destruct algo as [a|]; cbn; [|reflexivity].
    now destruct (OK a (iterations r)).
  - exact IH.
Qed.

(** X12. For every executor a client can obtain, with a budget that [Execute]
    accepts, [Err] returns the verdict of the attached algorithm on that
    budget, or the nil-algorithm error when there is none. *)
Theorem built_Err (r : Rerun) :
  built r -> (2 <= iterations r)%N -> Err r = Returns (verdict r).
Proof.
  intros Hb Hn. destruct (built_invariant r Hb) as [(_ & _ & H0) | H];
    [lia | exact H].
Qed.

Section Runs.

Variable timerFirst : nat -> bool.
Variable ctx : Context.
Variable r : Rerun.

(** [Execute] is its body followed by the deferred override. *)
Lemma Execute_inv (t0 : nat) res evs t1 :
  Execute timerFirst r ctx t0 = (res, evs, t1) ->
  exists res0,
    body timerFirst r ctx t0 = (res0, evs, t1) /\
    res = match res0 with
          | Returns e => Returns (if Done ctx t1 then Some (Cause ctx) else e)
          | Panics v => Panics v
          end.
Proof.
  unfold Execute. intros H.
  apply bind_inv in H as (res0 & evs1 & t' & evs2 & Hbody & Hrest & ->).
  cbv [bind now ret] in Hrest. injection Hrest as <- <- <-.
  exists res0. now rewrite app_nil_r.
Qed.

(** The ways the body of [Execute] ends: before anything happened, at a
    warmup sleep that failed, or in the loop. *)
Lemma body_inv (t0 : nat) res evs t1 :
  body timerFirst r ctx t0 = (res, evs, t1) ->
  (evs = [] /\ t1 = t0) \/
  exists a f,
    algorithm r = Some a /\ function r = Some f /\
    (2 <= iterations r)%N /\ Err r = Returns None /\
    ((exists x,
        sleep timerFirst ctx (Warmup a) t0 =
          (Some x, sleepEvents (Warmup a), t1) /\
        res = Returns (Some x) /\
        evs = EvWarmup :: sleepEvents (Warmup a)) \/
     (exists e evs' t',
        sleep timerFirst ctx (Warmup a) t0 =
          (None, sleepEvents (Warmup a), t') /\
        attempts timerFirst r a ctx 0 (N.to_nat (iterations r)) t' =
          (e, evs', t1) /\
        res = Returns e /\
        evs = EvWarmup :: sleepEvents (Warmup a) ++ evs')).
Proof.
  unfold body.
  destruct (function r) as [f|] eqn:Hf; [|intros [= _ <- <-]; now left].
  destruct (N.ltb_spec (iterations r) 2) as [Hn|Hn];
    [intros [= _ <- <-]; now left|].
  destruct (Err r) as [[e|]|w] eqn:HErr;
    [intros [= _ <- <-]; now left | | intros [= _ <- <-]; now left].
  destruct (algorithm r) as [a|] eqn:Ha; [|intros [= _ <- <-]; now left].
  intros H. right. exists a, f. repeat (split; [auto|]).
  apply bind_inv in H as (u & evs0 & t2 & evs3 & Hemit & H & ->).
  injection Hemit as _ <- <-.
  apply bind_inv in H as (e & evs4 & t3 & evs5 & Hsleep & H & ->).
  pose proof (sleep_events _ _ _ _ _ _ _ Hsleep) as ->.
  destruct e as [x|].
  - injection H as <- <- <-. left. exists x.
    rewrite app_nil_r. auto.
  - apply bind_inv in H as (e' & evs6 & t4 & evs7 & Hatt & Hret & ->).
    injection Hret as <- <- <-. right. exists e', evs6, t3.
    rewrite app_nil_r. auto.
Qed.

End Runs.

(** ** One turn of the loop *)

Lemma protocol_app (l l' : list event) :
  protocol (l ++ l') = protocol l ++ protocol l'.
Proof. apply filter_app. Qed.

Lemma protocol_sleepEvents (d : time.Duration) : protocol (sleepEvents d) = [].
Proof. unfold sleepEvents. now destruct (0 <? d). Qed.

Lemma protocol_attemptEvents (a : Algorithm) (i : N) :
  protocol (attemptEvents a i) =
  if (0 <? i)%N then [EvWait i; EvCall i] else [EvCall i].
Proof.
  unfold attemptEvents. destruct (0 <? i)%N; [|reflexivity].
  cbn [app protocol filter]. fold (protocol (sleepEvents (Wait a i) ++ [EvCall i])).
  now rewrite protocol_app, protocol_sleepEvents.
Qed.

Lemma calls_attemptEvents (a : Algorithm) (i : N) :
  calls (attemptEvents a i) = [i].
Proof.
  unfold attemptEvents. destruct (0 <? i)%N; [|reflexivity].
  cbn [app]. change (calls (EvWait i :: ?l)) with (calls l).
  now rewrite calls_app, calls_sleepEvents.
Qed.

Lemma waitsAsked_attemptEvents (a : Algorithm) (i : N) :
  waitsAsked (attemptEvents a i) = if (0 <? i)%N then [i] else [].
Proof.
  unfold attemptEvents. destruct (0 <? i)%N; [|reflexivity].
  cbn [app]. change (waitsAsked (EvWait i :: ?l)) with (i :: waitsAsked l).
  now rewrite waitsAsked_app, waitsAsked_sleepEvents.
Qed.

Lemma pendingTimer_app (l l' : list event) :
  forall pending,
    pendingTimer pending (l ++ l') =
    match pendingTimer pending l with
    | Some p => pendingTimer p l'
    | None => None
    end.
Proof.
  induction l as [|e l IH]; intros pending; [reflexivity|].
  destruct e; cbn [app pendingTimer]; try apply IH;
    destruct pending; try reflexivity; apply IH.
Qed.

Lemma pendingTimer_sleepEvents (d : time.Duration) :
  pendingTimer false (sleepEvents d) = Some false.
Proof. unfold sleepEvents. now destruct (0 <? d). Qed.

Lemma pendingTimer_attemptEvents (a : Algorithm) (i : N) :
  pendingTimer false (attemptEvents a i) = Some false.
Proof.
  unfold attemptEvents. destruct (0 <? i)%N; [|reflexivity].
  cbn [app pendingTimer].
  now rewrite pendingTimer_app, pendingTimer_sleepEvents.
Qed.

Section Loop.

Variable timerFirst : nat -> bool.
Variable ctx : Context.
Variable r : Rerun.
Variable a : Algorithm.

Lemma runFunction_outcome (i : N) (t : nat) :
  runFunction r i t = (outcomeAt r i, [EvCall i], S t).
Proof. reflexivity. Qed.

(** The three ways one turn of the loop goes: the sleep before the
    attempt fails; the attempt ends the run; the attempt asks for a retry
    and the loop goes on. *)
Lemma attempts_step_inv (i : N) (k : nat) (t : nat) e evs t1 :
  attempts timerFirst r a ctx i (S k) t = (e, evs, t1) ->
  (exists x,
     (0 < i)%N /\
     sleep timerFirst ctx (Wait a i) t =
       (Some x, sleepEvents (Wait a i), t1) /\
     e = Some x /\ evs = EvWait i :: sleepEvents (Wait a i)) \/
  (e = outcomeAt r i /\ e <> Some ErrDoRetry /\ evs = attemptEvents a i) \/
  (exists evs' t',
     outcomeAt r i = Some ErrDoRetry /\
     attempts timerFirst r a ctx (N.succ i) k t' = (e, evs', t1) /\
     evs = attemptEvents a i ++ evs').
Proof.
  cbn [attempts]. intros H.
  apply bind_inv in H as (e0 & evs1 & t' & evs2 & Hwait & H & ->).
  assert (Hpre : (exists x, e0 = Some x /\ (0 < i)%N /\
                    sleep timerFirst ctx (Wait a i) t =
                      (Some x, sleepEvents (Wait a i), t') /\
                    evs1 = EvWait i :: sleepEvents (Wait a i)) \/
                 (e0 = None /\ evs1 ++ [EvCall i] = attemptEvents a i)).
  { unfold attemptEvents. destruct (N.ltb_spec 0 i) as [Hi|Hi].
    - apply bind_inv in Hwait as (u & evs3 & t2 & evs4 & Hemit & Hs & ->).
      injection Hemit as _ <- <-.
      pose proof (sleep_events _ _ _ _ _ _ _ Hs) as ->.
      destruct e0 as [x|]; [left; exists x; auto | right; auto].
    - injection Hwait as <- <- _. right. auto. }
  destruct Hpre as [(x & -> & Hi & Hs & ->) | (-> & Hevs)].
  - injection H as <- <- <-. left. exists x. rewrite app_nil_r. auto.
  - right.
    apply bind_inv in H as (e' & evs3 & t2 & evs4 & Hcall & H & ->).
    rewrite runFunction_outcome in Hcall. injection Hcall as <- <- <-.
    rewrite app_assoc, Hevs.
    destruct (outcomeAt r i) as [x|] eqn:Hout.
    + destruct (error_eqb x ErrDoRetry) eqn:Hx.
      * apply error_eqb_eq in Hx as ->. right. now exists evs4, (S t').
      * injection H as <- <- _. left. rewrite app_nil_r.
        repeat split. intros [= ->]. now rewrite error_eqb_refl in Hx.
    + injection H as <- <- _. left. rewrite app_nil_r.
      repeat split. discriminate.
Qed.

End Loop.

(** ** What every run keeps to *)

Lemma prefixOf_nil {A : Type} (l : list A) : prefixOf [] l.
Proof. now exists l. Qed.

Lemma prefixOf_app {A : Type} (l l1 l2 : list A) :
  prefixOf l1 l2 -> prefixOf (l ++ l1) (l ++ l2).
Proof. intros [rest ->]. exists rest. now rewrite app_assoc. Qed.

Section LoopInvariants.

Variable timerFirst : nat -> bool.
Variable ctx : Context.
Variable r : Rerun.
Variable a : Algorithm.

Lemma attempts_protocol (k : nat) :
  forall (i : N) (t : nat) e evs t1,
    attempts timerFirst r a ctx i k t = (e, evs, t1) ->
    prefixOf (protocol evs)
      (flat_map (fun i => if (0 <? i)%N then [EvWait i; EvCall i]
                          else [EvCall i]) (indices i k)).
Proof.
  induction k as [|k IH]; intros i t e evs t1 H.
  - injection H as _ <- _. apply prefixOf_nil.
  - cbn [indices flat_map].
    apply attempts_step_inv in H
      as [(x & Hi & _ & _ & ->) | [(_ & _ & ->) | (evs' & t' & _ & H & ->)]].
    + apply N.ltb_lt in Hi. rewrite Hi.
      cbn [protocol filter]. fold (protocol (sleepEvents (Wait a i))).
      rewrite protocol_sleepEvents.
      now exists (EvCall i :: flat_map
                    (fun i => if (0 <? i)%N then [EvWait i; EvCall i]
                              else [EvCall i]) (indices (N.succ i) k)).
    + rewrite protocol_attemptEvents. now eexists.
    + rewrite protocol_app, protocol_attemptEvents.
      apply prefixOf_app. now apply IH in H.
Qed.

Lemma attempts_timers (k : nat) :
  forall (i : N) (t : nat) e evs t1,
    attempts timerFirst r a ctx i k t = (e, evs, t1) ->
    pendingTimer false evs = Some false.
Proof.
  induction k as [|k IH]; intros i t e evs t1 H.
  - now injection H as _ <- _.
  - apply attempts_step_inv in H
      as [(x & _ & _ & _ & ->) | [(_ & _ & ->) | (evs' & t' & _ & H & ->)]].
    + cbn [pendingTimer]. apply pendingTimer_sleepEvents.
    + apply pendingTimer_attemptEvents.
    + rewrite pendingTimer_app, pendingTimer_attemptEvents. now apply IH in H.
Qed.

(** From a turn that a wait precedes: [c] invocations, and as many waits
    or one more. *)
Lemma attempts_counts (k : nat) :
  forall (i : N) (t : nat) e evs t1,
    (0 < i)%N ->
    attempts timerFirst r a ctx i k t = (e, evs, t1) ->
    exists c : nat,
      (c <= k)%nat /\ calls evs = indices i c /\
      (waitsAsked evs = indices i c \/
       (waitsAsked evs = indices i (S c) /\ (c < k)%nat)).
Proof.
  induction k as [|k IH]; intros i t e evs t1 Hi H.
  - injection H as _ <- _. exists O. auto.
  - pose proof Hi as Hib. apply N.ltb_lt in Hib.
    apply attempts_step_inv in H
      as [(x & _ & _ & _ & ->) | [(_ & _ & ->) | (evs' & t' & _ & H & ->)]].
    + exists O. split; [lia|]. split.
      * change (calls (EvWait i :: ?l)) with (calls l). apply calls_sleepEvents.
      * right. split; [|lia].
        change (waitsAsked (EvWait i :: ?l)) with (i :: waitsAsked l).
        now rewrite waitsAsked_sleepEvents.
    + exists 1%nat. split; [lia|].
      rewrite calls_attemptEvents, waitsAsked_attemptEvents, Hib. auto.
    + apply IH in H as (c & Hc & Hcalls & Hwaits); [|lia].
      exists (S c). split; [lia|].
      rewrite calls_app, waitsAsked_app, calls_attemptEvents,
        waitsAsked_attemptEvents, Hib, Hcalls.
      split; [reflexivity|].
      destruct Hwaits as [-> | [-> Hlt]]; [left | right; split; [|lia]];
        reflexivity.
Qed.

(** How the loop can end. *)
Lemma attempts_outcomes (k : nat) :
  forall (i : N) (t : nat) e evs t1,
    attempts timerFirst r a ctx i k t = (e, evs, t1) ->
    e = Some ErrAttemptsExhausted \/
    e = Some ErrNegativeDuration \/
    (e = Some (ctxErr ctx) /\ Done ctx t1 = true) \/
    (exists j, In (EvCall j) evs /\ e = outcomeAt r j /\ e <> Some ErrDoRetry).
Proof.
  induction k as [|k IH]; intros i t e evs t1 H.
  - injection H as <- _ _. now left.
  - apply attempts_step_inv in H
      as [(x & _ & Hs & -> & ->) | [(-> & Hne & ->) | (evs' & t' & _ & H & ->)]].
    + apply sleep_cases in Hs
        as [(Hx & _) | [(Hx & _) | (Hx & _ & HDone & _)]];
        [discriminate | now right; left | now right; right; left].
    + right. right. right. exists i. split; [|auto].
      apply In_calls. rewrite calls_attemptEvents. now left.
    + apply IH in H as [H | [H | [H | (j & Hj & H)]]]; auto.
      right. right. right. exists j. split; [|assumption].
      apply in_or_app. now right.
Qed.

End LoopInvariants.

Section RunInvariants.

Variable timerFirst : nat -> bool.
Variable ctx : Context.
Variable r : Rerun.

(** The runs that end before the warmup. *)
Lemma body_refused (t0 : nat) res t1 :
  body timerFirst r ctx t0 = (res, [], t1) ->
  t1 = t0 /\
  ((function r = None /\ res = Returns (Some ErrNoFunction)) \/
   (function r <> None /\ (iterations r < 2)%N /\
    res = Returns (Some ErrTooFewIterations)) \/
   (function r <> None /\ (2 <= iterations r)%N /\
    exists x, Err r = Returns (Some x) /\ res = Returns (Some x)) \/
   (exists v, res = Panics v)).
Proof.
  unfold body.
  destruct (function r) as [f|] eqn:Hf; [|intros [= <- <-]; auto].
  destruct (N.ltb_spec (iterations r) 2) as [Hn|Hn].
  { intros [= <- <-]. split; [reflexivity|]. right. left.
    repeat split; [discriminate | assumption]. }
  destruct (Err r) as [[e|]|w] eqn:HErr.
  - intros [= <- <-]. split; [reflexivity|]. right. right. left.
    repeat split; [discriminate | assumption | now exists e].
  - destruct (algorithm r) as [a|].
    + intros H.
      apply bind_inv in H as (u & evs0 & t2 & evs3 & Hemit & _ & Hevs).
      injection Hemit as _ <- _. discriminate.
    + intros [= <- <-]. split; [reflexivity|]. right. right. right.
      now eexists.
  - intros [= <- <-]. split; [reflexivity|]. right. right. right.
    now eexists.
Qed.

(** X1. Every run of [Execute] follows the schedule of its budget, call 0,
    wait 1, call 1, wait 2, ..., up to the point where it stops: the
    waits asked and the invocations made, in their order, are a prefix
    of it. *)
Theorem Execute_follows_schedule (t0 : nat) res evs t1 :
  Execute timerFirst r ctx t0 = (res, evs, t1) ->
  prefixOf (protocol evs) (schedule (iterations r)).
Proof.
  intros H. apply Execute_inv in H as (res0 & H & _).
  apply body_inv in H
    as [[-> _] | (a & f & _ & _ & _ & _ &
                  [(x & _ & _ & ->) | (e & evs' & t' & _ & H & _ & ->)])].
  - apply prefixOf_nil.
  - cbn [protocol filter]. fold (protocol (sleepEvents (Warmup a))).
    rewrite protocol_sleepEvents. apply prefixOf_nil.
  - cbn [protocol filter].
    fold (protocol (sleepEvents (Warmup a) ++ evs')).
    rewrite protocol_app, protocol_sleepEvents.
    exact (attempts_protocol _ _ _ _ _ _ _ _ _ _ H).
Qed.

(** X2. In every run the function is invoked with 0, 1, ..., [c-1] for some
    [c] that is at most the budget, each index once and in this order;
    the algorithm is asked for the waits of 1, ..., [w], where [w] is [c]
    or [c-1] and is less than the budget. *)
Theorem Execute_counts (t0 : nat) res evs t1 :
  Execute timerFirst r ctx t0 = (res, evs, t1) ->
  exists c w : nat,
    calls evs = indices 0 c /\ waitsAsked evs = indices 1 w /\
    (c <= N.to_nat (iterations r))%nat /\
    (w = c \/ S w = c) /\
    (w <= N.to_nat (iterations r) - 1)%nat.
Proof.
  intros H. apply Execute_inv in H as (res0 & H & _).
  apply body_inv in H
    as [[-> _] | (a & f & _ & _ & Hn & _ &
                  [(x & _ & _ & ->) | (e & evs' & t' & _ & H & _ & ->)])].
  - exists O, O. cbn. repeat split; auto; lia.
  - exists O, O.
    change (calls (EvWarmup :: ?l)) with (calls l).
    change (waitsAsked (EvWarmup :: ?l)) with (waitsAsked l).
    rewrite calls_sleepEvents, waitsAsked_sleepEvents.
    cbn. repeat split; auto; lia.
  - change (calls (EvWarmup :: ?l)) with (calls l).
    change (waitsAsked (EvWarmup :: ?l)) with (waitsAsked l).
    rewrite calls_app, waitsAsked_app, calls_sleepEvents,
      waitsAsked_sleepEvents. cbn [app].
    destruct (N.to_nat (iterations r)) as [|k] eqn:Hk; [lia|].
    apply attempts_step_inv in H
      as [(x & Hi & _) | [(_ & _ & ->) | (evs2 & t2 & _ & H & ->)]].
    + lia.
    + exists 1%nat, O. rewrite calls_attemptEvents, waitsAsked_attemptEvents.
      cbn. repeat split; auto; lia.
    + apply attempts_counts in H as (c & Hc & Hcalls & Hwaits); [|reflexivity].
      rewrite calls_app, waitsAsked_app, calls_attemptEvents,
        waitsAsked_attemptEvents, Hcalls. cbn [N.ltb N.compare app].
      destruct Hwaits as [-> | [-> Hlt]].
      * exists (S c), c. repeat split; auto; lia.
      * exists (S c), (S c). repeat split; auto; lia.
Qed.

(** X3. No run makes a timer while another is pending, stops a timer that is
    not pending, or leaves one pending when it ends, however the run
    ends. *)
Theorem Execute_stops_its_timers (t0 : nat) res evs t1 :
  Execute timerFirst r ctx t0 = (res, evs, t1) ->
  pendingTimer false evs = Some false.
Proof.
  intros H. apply Execute_inv in H as (res0 & H & _).
  apply body_inv in H
    as [[-> _] | (a & f & _ & _ & _ & _ &
                  [(x & _ & _ & ->) | (e & evs' & t' & _ & H & _ & ->)])].
  - reflexivity.
  - cbn [pendingTimer]. apply pendingTimer_sleepEvents.
  - cbn [pendingTimer].
    rewrite pendingTimer_app, pendingTimer_sleepEvents.
    exact (attempts_timers _ _ _ _ _ _ _ _ _ _ H).
Qed.

(** X4. What [Execute] returns when the context is not done at that instant:
    the no-function or the too-few-iterations error; the error [Err]
    reports; the negative-duration error of a sleep; the
    attempts-exhausted error; or what one of the attempts made yielded,
    which is never the retry error. *)
Theorem Execute_outcomes (t0 : nat) e evs t1 :
  Execute timerFirst r ctx t0 = (Returns e, evs, t1) ->
  Done ctx t1 = false ->
  (e = Some ErrNoFunction /\ function r = None /\ evs = []) \/
  (e = Some ErrTooFewIterations /\ (iterations r < 2)%N /\ evs = []) \/
  (Err r = Returns e /\ e <> None /\ evs = []) \/
  e = Some ErrNegativeDuration \/
  e = Some ErrAttemptsExhausted \/
  (exists j, In (EvCall j) evs /\ e = outcomeAt r j /\ e <> Some ErrDoRetry).
Proof.
  intros H HDone. apply Execute_inv in H as (res0 & H & Hres).
  destruct res0 as [e0|v]; [|discriminate].
  rewrite HDone in Hres. injection Hres as ->.
  destruct evs as [|ev evs].
  - apply body_refused in H
      as [_ [(Hf & [= ->]) | [(_ & Hn & [= ->]) |
             [(_ & _ & x & HErr & [= ->]) | (v & [=])]]]]; auto.
    right. right. left. repeat split; [assumption | discriminate].
  - apply body_inv in H
      as [[[=] _] | (a & f & _ & _ & _ & _ &
                     [(x & Hs & [= ->] & _) |
                      (e & evs' & t' & _ & H & [= ->] & Hevs)])].
    + apply sleep_cases in Hs
        as [([=] & _) | [([= ->] & _) | (_ & _ & HD & _)]];
        [do 3 right; now left | congruence].
    + apply attempts_outcomes in H as [H | [H | [[_ HD] | (j & Hj & H)]]].
      * do 4 right. now left.
      * do 3 right. now left.
      * congruence.
      * do 5 right. exists j. split; [|assumption].
        rewrite Hevs. right. apply in_or_app. now right.
Qed.

End RunInvariants.

(** ** Runs that nothing disturbs *)

Lemma indices_snoc (m : nat) :
  forall i, indices i (S m) = indices i m ++ [(i + N.of_nat m)%N].
Proof.
  induction m as [|m IH]; intros i.
  - cbn. now rewrite N.add_0_r.
  - change (indices i (S (S m))) with (i :: indices (N.succ i) (S m)).
    rewrite IH. cbn [indices app]. do 3 f_equal. lia.
Qed.

Section Undisturbed.

Variable timerFirst : nat -> bool.
Variable ctx : Context.
Variable r : Rerun.
Variable a : Algorithm.
Hypothesis Hnever : forall t, Done ctx t = false.

(** One turn of the loop whose wait is not negative. *)
Lemma attempts_turn (i : N) (t : nat) :
  ((0 < i)%N -> 0 <= Wait a i) ->
  exists t', forall k,
    attempts timerFirst r a ctx i (S k) t =
    match outcomeAt r i with
    | Some x =>
        if error_eqb x ErrDoRetry
        then let '(e, evs, t2) :=
               attempts timerFirst r a ctx (N.succ i) k t' in
             (e, attemptEvents a i ++ evs, t2)
        else (Some x, attemptEvents a i, t')
    | None => (None, attemptEvents a i, t')
    end.
Proof.
  intros Hw.
  assert (Hwait : exists t1,
            (if (0 <? i)%N
             then bind (emit (EvWait i))
                    (fun _ => sleep timerFirst ctx (Wait a i))
             else ret None) t =
            (None, if (0 <? i)%N then EvWait i :: sleepEvents (Wait a i)
                   else [], t1)).
  { destruct (N.ltb_spec 0 i) as [Hi|Hi].
    - apply wait_before_attempt_undisturbed; auto.
    - now exists t. }
  destruct Hwait as [t1 Hwait]. exists (S t1). intros k.
  cbn [attempts]. rewrite (bind_eq _ _ _ _ _ _ Hwait).
  rewrite (bind_eq _ _ _ _ _ _ (runFunction_outcome r i t1)).
  unfold attemptEvents.
  destruct (outcomeAt r i) as [x|].
  - destruct (error_eqb x ErrDoRetry).
    + destruct (attempts timerFirst r a ctx (N.succ i) k (S t1))
        as [[e evs] t2].
      now rewrite <- app_assoc.
    + unfold ret. now rewrite app_nil_r.
  - unfold ret. now rewrite app_nil_r.
Qed.

(** [m] turns that all ask for a retry, then the rest of the loop. *)
Lemma attempts_retries (m : nat) :
  forall (i : N) (t : nat),
    (forall j, (i <= j < i + N.of_nat m)%N ->
               outcomeAt r j = Some ErrDoRetry /\
               ((0 < j)%N -> 0 <= Wait a j)) ->
    exists t', forall k,
      attempts timerFirst r a ctx i (m + k) t =
      let '(e, evs, t2) :=
        attempts timerFirst r a ctx (i + N.of_nat m) k t' in
      (e, flat_map (attemptEvents a) (indices i m) ++ evs, t2).
Proof.
  induction m as [|m IH]; intros i t H.
  - exists t. intros k. cbn [plus indices flat_map app].
    rewrite N.add_0_r.
    now destruct (attempts timerFirst r a ctx i k t) as [[e evs] t2].
  - destruct (H i) as [Hretry Hw]; [lia|].
    destruct (attempts_turn i t Hw) as [t1 Hturn].
    destruct (IH (N.succ i) t1) as [t' Hrest].
    { intros j Hj. apply H. lia. }
    exists t'. intros k. cbn [plus].
    rewrite Hturn, Hretry, error_eqb_refl, Hrest.
    replace (N.succ i + N.of_nat m)%N with (i + N.of_nat (S m))%N by lia.
    destruct (attempts timerFirst r a ctx (i + N.of_nat (S m)) k t')
      as [[e evs] t2].
    cbn [indices flat_map]. now rewrite <- app_assoc.
Qed.

(** The body of [Execute] once the checks and the warmup are passed. *)
Lemma body_runs (t0 : nat) :
  function r <> None ->
  (2 <= iterations r)%N ->
  algorithm r = Some a ->
  Err r = Returns None ->
  0 <= Warmup a ->
  exists t',
    body timerFirst r ctx t0 =
    let '(e, evs, t1) :=
      attempts timerFirst r a ctx 0 (N.to_nat (iterations r)) t' in
    (Returns e, EvWarmup :: sleepEvents (Warmup a) ++ evs, t1).
Proof.
  intros Hf Hn Ha HErr Hwarm. unfold body.
  destruct (function r) as [f|]; [|contradiction].
  replace (iterations r <? 2)%N with false
    by (symmetry; apply N.ltb_ge; exact Hn).
  rewrite HErr, Ha.
  destruct (sleep_undisturbed timerFirst ctx (Warmup a) t0 Hnever Hwarm)
    as [t' Hsleep].
  exists t'. unfold bind at 1. unfold emit.
  rewrite (bind_eq _ _ _ _ _ _ Hsleep).
  unfold bind, ret.
  destruct (attempts timerFirst r a ctx 0 (N.to_nat (iterations r)) t')
    as [[e evs] t1].
  cbn [app]. now rewrite app_nil_r.
Qed.

Lemma Execute_of_body (t0 : nat) e evs t1 :
  body timerFirst r ctx t0 = (Returns e, evs, t1) ->
  Execute timerFirst r ctx t0 = (Returns e, evs, t1).
Proof.
  intros H. unfold Execute. rewrite (bind_eq _ _ _ _ _ _ H).
  cbv [bind now ret]. now rewrite Hnever, !app_nil_r.
Qed.

End Undisturbed.

Lemma calls_attempts (a : Algorithm) (l : list N) :
  calls (flat_map (attemptEvents a) l) = l.
Proof.
  induction l as [|i l IH]; [reflexivity|].
  cbn [flat_map]. now rewrite calls_app, calls_attemptEvents, IH.
Qed.

Lemma calls_traceThrough (a : Algorithm) (k : N) :
  calls (traceThrough a k) = indices 0 (S (N.to_nat k)).
Proof.
  unfold traceThrough. change (calls (EvWarmup :: ?l)) with (calls l).
  now rewrite calls_app, calls_sleepEvents, calls_attempts.
Qed.

Lemma waitsAsked_attempts (a : Algorithm) (m : nat) :
  forall i, (0 < i)%N ->
    waitsAsked (flat_map (attemptEvents a) (indices i m)) = indices i m.
Proof.
  induction m as [|m IH]; intros i Hi; [reflexivity|].
  cbn [indices flat_map].
  rewrite waitsAsked_app, waitsAsked_attemptEvents, IH by lia.
  now replace (0 <? i)%N with true by (symmetry; now apply N.ltb_lt).
Qed.

Lemma waitsAsked_traceThrough (a : Algorithm) (k : N) :
  waitsAsked (traceThrough a k) = indices 1 (N.to_nat k).
Proof.
  unfold traceThrough.
  change (waitsAsked (EvWarmup :: ?l)) with (waitsAsked l).
  rewrite waitsAsked_app, waitsAsked_sleepEvents.
  cbn [app indices flat_map].
  rewrite waitsAsked_app, waitsAsked_attemptEvents.
  now apply waitsAsked_attempts.
Qed.

Lemma outcomeAt_returns (r : Rerun) (f : Func) (i : N) (e : option error) :
  function r = Some f -> f i = Returns e -> outcomeAt r i = e.
Proof. unfold outcomeAt. now intros -> ->. Qed.

Section Results.

Variable timerFirst : nat -> bool.
Variable ctx : Context.
Variable r : Rerun.
Variable a : Algorithm.
Variable f : Func.

(** A wait that is negative ends the loop where it is asked. *)
Lemma attempts_negative_wait (i : N) (k : nat) (t : nat) :
  (0 < i)%N -> Wait a i < 0 ->
  attempts timerFirst r a ctx i (S k) t =
  (Some ErrNegativeDuration, [EvWait i], t).
Proof.
  intros Hi Hw. cbn [attempts].
  replace (0 <? i)%N with true by (symmetry; now apply N.ltb_lt).
  assert (Hwait : bind (emit (EvWait i))
                    (fun _ => sleep timerFirst ctx (Wait a i)) t =
                  (Some ErrNegativeDuration, [EvWait i], t)).
  { unfold bind, emit. now rewrite sleep_negative. }
  now rewrite (bind_eq _ _ _ _ _ _ Hwait).
Qed.

(** X5. The first attempt that does not ask for a retry decides the run.
    With a context that is never done, an algorithm that passes [OK] and
    whose warmup and waits up to [k] are not negative: when the function
    asks for a retry at the attempts before [k] and returns [e], nil or
    an error other than the retry error, at attempt [k] within the
    budget, [Execute] returns [e], after the invocations 0..[k] and the
    waits 1..[k] and nothing more. *)
Theorem Execute_returns_first_result (k : N) (e : option error) (t0 : nat) :
  (forall t, Done ctx t = false) ->
  function r = Some f ->
  algorithm r = Some a ->
  err r = None ->
  OK a (iterations r) = None ->
  (2 <= iterations r)%N ->
  (k < iterations r)%N ->
  0 <= Warmup a ->
  (forall j, (1 <= j <= k)%N -> 0 <= Wait a j) ->
  (forall j, (j < k)%N -> f j = Returns (Some ErrDoRetry)) ->
  f k = Returns e ->
  e <> Some ErrDoRetry ->
  exists t1,
    Execute timerFirst r ctx t0 = (Returns e, traceThrough a k, t1) /\
    calls (traceThrough a k) = indices 0 (S (N.to_nat k)) /\
    waitsAsked (traceThrough a k) = indices 1 (N.to_nat k).
Proof.
  intros Hnever Hf Ha Herr HOK Hn Hk Hwarm Hwaits Hretry Hlast Hne.
  assert (HErr : Err r = Returns None).
  { unfold Err. now rewrite Herr, Ha, HOK. }
  destruct (body_runs timerFirst ctx r a Hnever t0) as [t' Hbody];
    try assumption; [now rewrite Hf|].
  destruct (attempts_retries timerFirst ctx r a Hnever (N.to_nat k) 0%N t')
    as [t2 Hpre].
  { intros j Hj. split.
    - apply (outcomeAt_returns r f); [assumption | apply Hretry; lia].
    - intros Hj0. apply Hwaits. lia. }
  destruct (attempts_turn timerFirst ctx r a Hnever (0 + N.of_nat (N.to_nat k)) t2)
    as [t3 Hturn].
  { intros H0. apply Hwaits. lia. }
  exists t3. split; [|split].
  - apply Execute_of_body; [assumption|].
    rewrite Hbody.
    replace (N.to_nat (iterations r))
      with (N.to_nat k + S (N.to_nat (iterations r) - N.to_nat k - 1))%nat
      by lia.
    rewrite Hpre, Hturn.
    replace (0 + N.of_nat (N.to_nat k))%N with k by lia.
    rewrite (outcomeAt_returns r f k e Hf Hlast).
    assert (Hend : match e with
                   | Some x =>
                       if error_eqb x ErrDoRetry
                       then let '(e0, evs, t4) :=
                              attempts timerFirst r a ctx (N.succ k)
                                (N.to_nat (iterations r) - N.to_nat k - 1) t3 in
                            (e0, attemptEvents a k ++ evs, t4)
                       else (Some x, attemptEvents a k, t3)
                   | None => (None, attemptEvents a k, t3)
                   end = (e, attemptEvents a k, t3)).
    { destruct e as [x|]; [|reflexivity].
      destruct (error_eqb x ErrDoRetry) eqn:Hx; [|reflexivity].
      apply error_eqb_eq in Hx. congruence. }
    rewrite Hend. unfold traceThrough.
    rewrite indices_snoc, flat_map_app. cbn [flat_map].
    rewrite app_nil_r.
    replace (0 + N.of_nat (N.to_nat k))%N with k by lia.
    reflexivity.
  - apply calls_traceThrough.
  - apply waitsAsked_traceThrough.
Qed.

End Results.

Section Refusals.

Variable timerFirst : nat -> bool.
Variable ctx : Context.
Variable r : Rerun.

(** X6. A wait that comes out negative is refused when it is reached, also
    for an algorithm that passed [OK].  With a context that is never
    done, when the function asks for a retry at the attempts 0..[k] and
    the wait before attempt [k+1] is negative, [Execute] returns the
    negative-duration error; the function has been invoked [k+1] times,
    and no timer was made for the refused wait. *)
Theorem Execute_refuses_negative_wait (a : Algorithm) (f : Func) (k : N)
    (t0 : nat) :
  (forall t, Done ctx t = false) ->
  function r = Some f ->
  algorithm r = Some a ->
  err r = None ->
  OK a (iterations r) = None ->
  (k + 1 < iterations r)%N ->
  0 <= Warmup a ->
  (forall j, (1 <= j <= k)%N -> 0 <= Wait a j) ->
  Wait a (k + 1) < 0 ->
  (forall j, (j <= k)%N -> f j = Returns (Some ErrDoRetry)) ->
  exists t1,
    Execute timerFirst r ctx t0 =
      (Returns (Some ErrNegativeDuration),
       traceThrough a k ++ [EvWait (k + 1)], t1) /\
    calls (traceThrough a k ++ [EvWait (k + 1)]) = indices 0 (S (N.to_nat k)).
Proof.
  intros Hnever Hf Ha Herr HOK Hk Hwarm Hwaits Hneg Hretry.
  assert (HErr : Err r = Returns None).
  { unfold Err. now rewrite Herr, Ha, HOK. }
  destruct (body_runs timerFirst ctx r a Hnever t0) as [t' Hbody];
    try assumption; [now rewrite Hf | lia |].
  destruct (attempts_retries timerFirst ctx r a Hnever (S (N.to_nat k)) 0%N t')
    as [t2 Hpre].
  { intros j Hj. split.
    - apply (outcomeAt_returns r f); [assumption | apply Hretry; lia].
    - intros Hj0. apply Hwaits. lia. }
  exists t2. split.
  - apply Execute_of_body; [assumption|].
    rewrite Hbody.
    replace (N.to_nat (iterations r))
      with (S (N.to_nat k) + S (N.to_nat (iterations r) - N.to_nat k - 2))%nat
      by lia.
    rewrite Hpre.
    replace (0 + N.of_nat (S (N.to_nat k)))%N with (k + 1)%N by lia.
    rewrite attempts_negative_wait by (assumption || lia).
    unfold traceThrough. cbn [app]. now rewrite <- app_assoc.
  - rewrite calls_app, calls_traceThrough. cbn [calls flat_map].
    apply app_nil_r.
Qed.

(** X7. A context that is cancelled while the warmup is slept: [Execute]
    returns the cause of the cancellation, the timer of the warmup has
    been stopped and the function has not been invoked. *)
Theorem Execute_cancelled_in_warmup (a : Algorithm) (t0 : nat) :
  function r <> None ->
  (2 <= iterations r)%N ->
  algorithm r = Some a ->
  Err r = Returns None ->
  0 < Warmup a ->
  Done ctx (S t0) = true ->
  timerFirst (S t0) = false ->
  Execute timerFirst r ctx t0 =
    (Returns (Some (Cause ctx)),
     [EvWarmup; EvNewTimer (Warmup a); EvStop], S t0).
Proof.
  intros Hf Hn Ha HErr Hwarm HDone Hrace.
  assert (Hsleep : sleep timerFirst ctx (Warmup a) t0 =
                   (Some (ctxErr ctx), [EvNewTimer (Warmup a); EvStop], S t0)).
  { rewrite sleep_positive by assumption. now rewrite HDone, Hrace. }
  assert (Hbody : body timerFirst r ctx t0 =
                  (Returns (Some (ctxErr ctx)),
                   [EvWarmup; EvNewTimer (Warmup a); EvStop], S t0)).
  { unfold body.
    destruct (function r) as [f|]; [|contradiction].
    replace (iterations r <? 2)%N with false
      by (symmetry; apply N.ltb_ge; exact Hn).
    rewrite HErr, Ha.
    unfold bind at 1. unfold emit.
    now rewrite (bind_eq _ _ _ _ _ _ Hsleep). }
  unfold Execute. rewrite (bind_eq _ _ _ _ _ _ Hbody).
  cbv [bind now ret]. now rewrite HDone.
Qed.

(** X10. The checks of [Execute] come before any wait or attempt, in this
    order: without a function it returns the no-function error, whatever
    the budget and the algorithm; with a function and a budget below 2,
    the too-few-iterations error, whatever the algorithm; with both in
    order, the error that [Err] reports, if any.  In each case nothing
    has happened and no time has passed, and the cause of the
    cancellation is returned instead when the context is done. *)
Theorem Execute_checks_first (t0 : nat) :
  (function r = None ->
   Execute timerFirst r ctx t0 =
     (Returns (Some (if Done ctx t0 then Cause ctx else ErrNoFunction)),
      [], t0)) /\
  (function r <> None -> (iterations r < 2)%N ->
   Execute timerFirst r ctx t0 =
     (Returns (Some (if Done ctx t0 then Cause ctx else ErrTooFewIterations)),
      [], t0)) /\
  (forall x,
     function r <> None -> (2 <= iterations r)%N ->
     Err r = Returns (Some x) ->
     Execute timerFirst r ctx t0 =
       (Returns (Some (if Done ctx t0 then Cause ctx else x)), [], t0)).
Proof.
  unfold Execute, body. repeat split.
  - intros ->. cbv [bind now ret]. now destruct (Done ctx t0).
  - intros Hf Hn. destruct (function r); [|contradiction].
    replace (iterations r <? 2)%N with true
      by (symmetry; apply N.ltb_lt; exact Hn).
    cbv [bind now ret]. now destruct (Done ctx t0).
  - intros x Hf Hn HErr. destruct (function r); [|contradiction].
    replace (iterations r <? 2)%N with false
      by (symmetry; apply N.ltb_ge; exact Hn).
    rewrite HErr. cbv [bind now ret]. now destruct (Done ctx t0).
Qed.

(** X11. [Execute] returns, and does not panic, on every executor a client
    can obtain. *)
Theorem Execute_of_built_returns (t0 : nat) :
  built r ->
  exists e evs t1, Execute timerFirst r ctx t0 = (Returns e, evs, t1).
Proof.
  intros Hb.
  assert (Hbody : exists e evs t1,
            body timerFirst r ctx t0 = (Returns e, evs, t1)).
  { unfold body.
    destruct (function r) as [f|]; [|now eexists _, _, _].
    destruct (N.ltb_spec (iterations r) 2) as [Hn|Hn];
      [now eexists _, _, _|].
    destruct (built_invariant r Hb) as [(_ & _ & H0) | HErr]; [lia|].
    rewrite HErr. unfold verdict.
    destruct (algorithm r) as [a|]; [|now eexists _, _, _].
    destruct (OK a (iterations r)); [now eexists _, _, _|].
    unfold bind, emit.
    destruct (sleep timerFirst ctx (Warmup a) t0) as [[[x|] evs] t1];
      [now eexists _, _, _|].
    destruct (attempts timerFirst r a ctx 0 _ t1) as [[e' evs'] t2].
    now eexists _, _, _. }
  destruct Hbody as (e & evs & t1 & Hbody).
  unfold Execute. rewrite (bind_eq _ _ _ _ _ _ Hbody).
  cbv [bind now ret]. now eexists _, _, _.
Qed.

End Refusals.

(** ** What the context cannot stop *)

Lemma bind_ext {A B} (m : M A) (k k' : A -> M B) (t : nat) :
  (forall a t1, k a t1 = k' a t1) -> bind m k t = bind m k' t.
Proof.
  intros H. unfold bind. destruct (m t) as [[a evs] t1]. now rewrite H.
Qed.

Section Unwatched.

Variable r : Rerun.
Variable a : Algorithm.

(** With waits that are all zero the loop never looks at the context. *)
Lemma attempts_without_delays (timerFirst timerFirst' : nat -> bool)
    (ctx ctx' : Context) (k : nat) :
  (forall i, Wait a i = 0) ->
  forall (i : N) (t : nat),
    attempts timerFirst r a ctx i k t = attempts timerFirst' r a ctx' i k t.
Proof.
  intros Hzero. induction k as [|k IH]; intros i t; [reflexivity|].
  cbn [attempts]. rewrite Hzero.
  change (sleep timerFirst ctx 0) with (@ret (option error) None).
  change (sleep timerFirst' ctx' 0) with (@ret (option error) None).
  apply bind_ext. intros [x|] t1; [reflexivity|].
  apply bind_ext. intros [x|] t2; [|reflexivity].
  destruct (error_eqb x ErrDoRetry); [apply IH | reflexivity].
Qed.

(** X9. An executor whose algorithm asks for no warmup and no wait runs the
    same way under every context, one that is done from the start
    included: the same invocations, in the same time.  Only the error
    returned at the end can differ. *)
Theorem Execute_without_delays_ignores_context
    (timerFirst timerFirst' : nat -> bool) (ctx ctx' : Context)
    (t0 : nat) res evs t1 :
  algorithm r = Some a ->
  Warmup a = 0 ->
  (forall i, Wait a i = 0) ->
  Execute timerFirst r ctx t0 = (res, evs, t1) ->
  exists res', Execute timerFirst' r ctx' t0 = (res', evs, t1).
Proof.
  intros Ha Hwarm Hzero H.
  assert (Hbody : body timerFirst r ctx t0 = body timerFirst' r ctx' t0).
  { unfold body. rewrite Ha, Hwarm.
    destruct (function r); [|reflexivity].
    destruct (iterations r <? 2)%N; [reflexivity|].
    destruct (Err r) as [[e|]|v]; try reflexivity.
    change (sleep timerFirst ctx 0) with (@ret (option error) None).
    change (sleep timerFirst' ctx' 0) with (@ret (option error) None).
    apply bind_ext. intros _ t2.
    apply bind_ext. intros [x|] t3; [reflexivity|].
    unfold bind.
    now rewrite (attempts_without_delays timerFirst timerFirst' ctx ctx' _
                   Hzero). }
  apply Execute_inv in H as (res0 & H & _).
  rewrite Hbody in H. unfold Execute.
  rewrite (bind_eq _ _ _ _ _ _ H). cbv [bind now ret].
  rewrite !app_nil_r. now eexists.
Qed.

(** X8. With no warmup, an executor that passes the checks invokes its
    function at least once, also under a context that is done before
    [Execute] is called: nothing looks at the context before the first
    attempt. *)
Theorem Execute_first_attempt_is_made (timerFirst : nat -> bool)
    (ctx : Context) (t0 : nat) :
  function r <> None ->
  (2 <= iterations r)%N ->
  algorithm r = Some a ->
  Err r = Returns None ->
  Warmup a = 0 ->
  exists res evs t1,
    Execute timerFirst r ctx t0 = (res, EvWarmup :: EvCall 0 :: evs, t1).
Proof.
  intros Hf Hn Ha HErr Hwarm.
  assert (Hbody : exists res evs t1,
            body timerFirst r ctx t0 =
            (res, EvWarmup :: EvCall 0 :: evs, t1)).
  { unfold body.
    destruct (function r) as [f|]; [|contradiction].
    replace (iterations r <? 2)%N with false
      by (symmetry; apply N.ltb_ge; exact Hn).
    rewrite HErr, Ha, Hwarm.
    change (sleep timerFirst ctx 0) with (@ret (option error) None).
    destruct (N.to_nat (iterations r)) as [|k] eqn:Hk; [lia|].
    cbn [attempts N.ltb N.compare].
    cbv [bind emit ret tick runFunction]. cbn [app].
    destruct (match function r with
              | Some f0 => _
              | None => _
              end) as [x|]; [|now eexists _, _, _].
    destruct (error_eqb x ErrDoRetry); [|now eexists _, _, _].
    destruct (attempts timerFirst r a ctx (N.succ 0) k (S t0))
      as [[e evs] t1].
    now eexists _, _, _. }
  destruct Hbody as (res & evs & t1 & Hbody).
  unfold Execute. rewrite (bind_eq _ _ _ _ _ _ Hbody).
  cbv [bind now ret]. rewrite !app_nil_r. now eexists _, _, _.
Qed.

End Unwatched.

(** ** Validation and execution together *)

(** X22. For the fixed and the logarithmic delay validation is enough:
    with such a delay that passes [OK] for the budget, a function that
    asks for a retry at every call and a context that is never done, no
    sleep of [Execute] is refused, the function is invoked at each of the
    attempts 0..[n-1] and [Execute] returns the attempts-exhausted
    error. *)
Theorem Execute_with_validated_delay (unrepresentable : float64.t -> Z)
    (mathLog : float64.t -> float64.t) (timerFirst : nat -> bool)
    (ctx : Context) (r : Rerun) (d : Delay) (f : Func) (t0 : nat) :
  (forall ld, d <> Linear ld) ->
  (forall t, Done ctx t = false) ->
  function r = Some f ->
  algorithm r = Some (asAlgorithm unrepresentable mathLog d) ->
  err r = None ->
  OK (asAlgorithm unrepresentable mathLog d) (iterations r) = None ->
  (2 <= iterations r)%N ->
  (forall i, f i = Returns (Some ErrDoRetry)) ->
  exists t1,
    Execute timerFirst r ctx t0 =
      (Returns (Some ErrAttemptsExhausted),
       traceThrough (asAlgorithm unrepresentable mathLog d)
         (iterations r - 1), t1) /\
    calls (traceThrough (asAlgorithm unrepresentable mathLog d)
             (iterations r - 1)) =
      indices 0 (N.to_nat (iterations r)).
Proof.
  intros Hd Hnever Hf Ha Herr HOK Hn Hretry.
  set (a := asAlgorithm unrepresentable mathLog d) in *.
  assert (Hvalid : 0 <= Warmup a /\
                   forall i, (1 <= i < iterations r)%N -> 0 <= Wait a i).
  { subst a. destruct d as [fd | ld | ld].
    - split; [apply Z.le_refl|]. intros i _.
      exact (FixedDelay_OK_nonneg fd (iterations r) i HOK).
    - now destruct (Hd ld).
    - exact (LogarithmicDelay_OK_nonneg unrepresentable mathLog ld
               (iterations r) HOK). }
  destruct Hvalid as [Hwarm Hwaits].
  assert (HErr : Err r = Returns None).
  { unfold Err. now rewrite Herr, Ha, HOK. }
  destruct (body_runs timerFirst ctx r a Hnever t0) as [t' Hbody];
    try assumption; [now rewrite Hf|].
  destruct (attempts_retries timerFirst ctx r a Hnever
              (N.to_nat (iterations r)) 0%N t') as [t2 Hloop].
  { intros j Hj. split.
    - apply (outcomeAt_returns r f); [assumption | apply Hretry].
    - intros Hj0. apply Hwaits. lia. }
  exists t2. split.
  - apply Execute_of_body; [assumption|].
    rewrite Hbody.
    replace (N.to_nat (iterations r)) with (N.to_nat (iterations r) + 0)%nat
      at 1 by lia.
    rewrite Hloop. cbn [attempts ret]. rewrite app_nil_r.
    unfold traceThrough.
    replace (S (N.to_nat (iterations r - 1))) with (N.to_nat (iterations r))
      by lia.
    reflexivity.
  - rewrite calls_traceThrough. f_equal. lia.
Qed.

(** ** The further properties at sample values *)

Lemma sleep_outcomes_witness :
  sleep contextFirst cancelled 5 0%nat =
    (Some (ctxErr cancelled), [EvNewTimer 5; EvStop], 1%nat) /\
  ((Some (ctxErr cancelled) = None /\ 0 <= 5 /\
    [EvNewTimer 5; EvStop] = sleepEvents 5) \/
   (Some (ctxErr cancelled) = Some ErrNegativeDuration /\ 5 < 0 /\
    [EvNewTimer 5; EvStop] = [] /\ 1%nat = 0%nat) \/
   (Some (ctxErr cancelled) = Some (ctxErr cancelled) /\ 0 < 5 /\
    Done cancelled 1 = true /\
    [EvNewTimer 5; EvStop] = [EvNewTimer 5; EvStop] /\ 1%nat = 1%nat)).
Proof.
  split; [reflexivity|].
  apply (sleep_outcomes contextFirst cancelled 5 0%nat). reflexivity.
Defined.

Lemma OK_contract_of_fixed_and_logarithmic_witness :
  OK (asAlgorithm amd64 zeroLog (Fixed Fixed500ms)) 3%N = None /\
  0 <= Wait (asAlgorithm amd64 zeroLog (Fixed Fixed500ms)) 2%N.
Proof.
  split; [reflexivity|].
  apply (OK_contract_of_fixed_and_logarithmic amd64 zeroLog
           (Fixed Fixed500ms) 3%N 2%N).
  - intros ld. discriminate.
  - reflexivity.
  - lia.
Defined.

Lemma OK_warmup_nonneg_witness :
  OK (asAlgorithm amd64 zeroLog (Linear warming)) 3%N = None /\
  0 <= Warmup (asAlgorithm amd64 zeroLog (Linear warming)).
Proof.
  split; [reflexivity|].
  apply (OK_warmup_nonneg amd64 zeroLog (Linear warming) 3%N). reflexivity.
Defined.

Lemma LogarithmicDelay_OK_downward_witness :
  LogarithmicDelay.OK amd64 zeroLog flat 7%N = None /\
  LogarithmicDelay.OK amd64 zeroLog flat 4%N = None.
Proof.
  split; [reflexivity|].
  apply (LogarithmicDelay_OK_downward amd64 zeroLog flat 7%N 4%N);
    [lia | reflexivity].
Defined.

Lemma LogarithmicDelay_without_units_witness :
  LogarithmicDelay.Units tested = Millisecond /\
  LogarithmicDelay.Wait amd64 zeroLog
    {| LogarithmicDelay.Start := 0;
       LogarithmicDelay.Units := 0;
       LogarithmicDelay.Amplifier := float64.ofZ 300;
       LogarithmicDelay.Coefficient := float64.ofZ 20;
       LogarithmicDelay.Modifier := float64.ofZ (-14);
       LogarithmicDelay.VerticalOffset := float64.ofZ (-400);
       LogarithmicDelay.Denominator := float64.ofZ 0 |} 3%N = 0.
Proof.
  split; [reflexivity|].
  apply (LogarithmicDelay_without_units amd64 zeroLog
           {| LogarithmicDelay.Start := 0;
              LogarithmicDelay.Units := 0;
              LogarithmicDelay.Amplifier := float64.ofZ 300;
              LogarithmicDelay.Coefficient := float64.ofZ 20;
              LogarithmicDelay.Modifier := float64.ofZ (-14);
              LogarithmicDelay.VerticalOffset := float64.ofZ (-400);
              LogarithmicDelay.Denominator := float64.ofZ 0 |} 3%N).
  reflexivity.
Defined.

Lemma LinearDelay_first_wait_witness :
  LinearDelay.Wait amd64 falling 1%N = 100 * time.Millisecond.
Proof.
  apply (LinearDelay_first_wait amd64 falling).
  - reflexivity.
  - vm_compute. split; discriminate.
Defined.

Lemma built_Err_witness :
  Err (WithFunction (WithAlgorithm (WithAlgorithm (New 4) None)
                       (Some (LinearDelay.algorithm amd64 falling)))
         (Some alwaysRetry)) =
  Returns (LinearDelay.OK amd64 falling 4%N).
Proof.
  apply (built_Err
           (WithFunction (WithAlgorithm (WithAlgorithm (New 4) None)
                            (Some (LinearDelay.algorithm amd64 falling)))
              (Some alwaysRetry))).
  - apply built_WithFunction, built_WithAlgorithm, built_WithAlgorithm,
      built_New.
  - vm_compute. discriminate.
Defined.

Lemma Execute_of_built_returns_witness :
  exists e evs t1,
    Execute contextFirst (WithFunction zeroRerun (Some alwaysRetry))
      background 0%nat = (Returns e, evs, t1).
Proof.
  apply (Execute_of_built_returns contextFirst background
           (WithFunction zeroRerun (Some alwaysRetry)) 0%nat).
  apply built_WithFunction, built_zero.
Defined.

Lemma Execute_follows_schedule_witness :
  prefixOf
    (protocol [EvWarmup; EvCall 0; EvWait 1; EvNewTimer time.Second; EvStop])
    (schedule 3).
Proof.
  apply (Execute_follows_schedule contextFirst cancelledAtOne retrying3
           0%nat (Returns (Some (errorString "shutting down"))) _ 2%nat).
  reflexivity.
Defined.

Lemma Execute_counts_witness :
  exists c w : nat,
    calls [EvWarmup; EvCall 0; EvWait 1; EvNewTimer time.Second; EvStop] =
      indices 0 c /\
    waitsAsked [EvWarmup; EvCall 0; EvWait 1; EvNewTimer time.Second; EvStop] =
      indices 1 w /\
    (c <= 3)%nat /\ (w = c \/ S w = c) /\ (w <= 3 - 1)%nat.
Proof.
  apply (Execute_counts contextFirst cancelledAtOne retrying3
           0%nat (Returns (Some (errorString "shutting down"))) _ 2%nat).
  reflexivity.
Defined.

Lemma Execute_stops_its_timers_witness :
  pendingTimer false
    [EvWarmup; EvCall 0; EvWait 1; EvNewTimer time.Second; EvStop] =
  Some false.
Proof.
  apply (Execute_stops_its_timers contextFirst cancelledAtOne retrying3
           0%nat (Returns (Some (errorString "shutting down"))) _ 2%nat).
  reflexivity.
Defined.

Lemma Execute_outcomes_witness :
  (@None error = Some ErrNoFunction /\ function patient5 = None /\
   [EvWarmup; EvCall 0; EvWait 1; EvCall 1; EvWait 2; EvCall 2] = []) \/
  (@None error = Some ErrTooFewIterations /\ (iterations patient5 < 2)%N /\
   [EvWarmup; EvCall 0; EvWait 1; EvCall 1; EvWait 2; EvCall 2] = []) \/
  (Err patient5 = Returns None /\ @None error <> None /\
   [EvWarmup; EvCall 0; EvWait 1; EvCall 1; EvWait 2; EvCall 2] = []) \/
  @None error = Some ErrNegativeDuration \/
  @None error = Some ErrAttemptsExhausted \/
  (exists j,
     In (EvCall j)
       [EvWarmup; EvCall 0; EvWait 1; EvCall 1; EvWait 2; EvCall 2] /\
     None = outcomeAt patient5 j /\ @None error <> Some ErrDoRetry).
Proof.
  apply (Execute_outcomes contextFirst background patient5 0%nat None _ 3%nat);
    reflexivity.
Defined.

Lemma Execute_returns_first_result_witness :
  exists t1,
    Execute contextFirst patient5 background 0%nat =
      (Returns None,
       [EvWarmup; EvCall 0; EvWait 1; EvCall 1; EvWait 2; EvCall 2], t1) /\
    calls [EvWarmup; EvCall 0; EvWait 1; EvCall 1; EvWait 2; EvCall 2] =
      [0; 1; 2]%N /\
    waitsAsked [EvWarmup; EvCall 0; EvWait 1; EvCall 1; EvWait 2; EvCall 2] =
      [1; 2]%N.
Proof.
  apply (Execute_returns_first_result contextFirst background patient5
           (FixedDelay.algorithm 0) succeedsAtTwo 2%N None 0%nat);
    try reflexivity.
  - vm_compute. discriminate.
  - intros j Hj. unfold succeedsAtTwo.
    destruct (N.ltb_spec j 2); [reflexivity | lia].
  - discriminate.
Defined.

Lemma Execute_refuses_negative_wait_witness :
  err rising4 = None /\
  Wait (LinearDelay.algorithm amd64 risingFromBelow) 1%N = -100 /\
  exists t1,
    Execute contextFirst rising4 background 0%nat =
      (Returns (Some ErrNegativeDuration), [EvWarmup; EvCall 0; EvWait 1], t1) /\
    calls [EvWarmup; EvCall 0; EvWait 1] = [0%N].
Proof.
  split; [reflexivity|]. split; [reflexivity|].
  apply (Execute_refuses_negative_wait contextFirst background rising4
           (LinearDelay.algorithm amd64 risingFromBelow) alwaysRetry
           0%N 0%nat).
  - reflexivity.
  - reflexivity.
  - reflexivity.
  - vm_compute. reflexivity.
  - vm_compute. reflexivity.
  - vm_compute. reflexivity.
  - vm_compute. discriminate.
  - intros j Hj. lia.
  - vm_compute. reflexivity.
  - reflexivity.
Defined.

Lemma Execute_cancelled_in_warmup_witness :
  Execute contextFirst warmed3 cancelledAtOne 0%nat =
  (Returns (Some (errorString "shutting down")),
   [EvWarmup; EvNewTimer time.Second; EvStop], 1%nat).
Proof.
  apply (Execute_cancelled_in_warmup contextFirst cancelledAtOne warmed3
           (LinearDelay.algorithm amd64 warming) 0%nat);
    try reflexivity; discriminate.
Defined.

Lemma Execute_checks_first_witness :
  Execute contextFirst (New 0) background 0%nat =
    (Returns (Some ErrNoFunction), [], 0%nat) /\
  Execute contextFirst (WithFunction (WithAlgorithm (New 1) None)
                          (Some alwaysRetry)) background 0%nat =
    (Returns (Some ErrTooFewIterations), [], 0%nat) /\
  Execute contextFirst (WithFunction (WithAlgorithm (New 3) None)
                          (Some alwaysRetry)) cancelled 0%nat =
    (Returns (Some (Cause cancelled)), [], 0%nat).
Proof.
  split; [|split].
  - destruct (Execute_checks_first contextFirst background (New 0) 0%nat)
      as (H & _ & _).
    apply H. reflexivity.
  - destruct (Execute_checks_first contextFirst background
                (WithFunction (WithAlgorithm (New 1) None) (Some alwaysRetry))
                0%nat) as (_ & H & _).
    apply H; [discriminate | reflexivity].
  - destruct (Execute_checks_first contextFirst cancelled
                (WithFunction (WithAlgorithm (New 3) None) (Some alwaysRetry))
                0%nat) as (_ & _ & H).
    apply (H ErrNilAlgorithm); [discriminate | | reflexivity].
    vm_compute. discriminate.
Defined.

Lemma Execute_without_delays_ignores_context_witness :
  exists res',
    Execute contextFirst patient5 cancelled 0%nat =
    (res', [EvWarmup; EvCall 0; EvWait 1; EvCall 1; EvWait 2; EvCall 2],
     3%nat).
Proof.
  apply (Execute_without_delays_ignores_context patient5
           (FixedDelay.algorithm 0) contextFirst contextFirst
           background cancelled 0%nat (Returns None));
    reflexivity.
Defined.

Lemma Execute_first_attempt_is_made_witness :
  exists res evs t1,
    Execute contextFirst retrying3 cancelled 0%nat =
    (res, EvWarmup :: EvCall 0 :: evs, t1).
Proof.
  apply (Execute_first_attempt_is_made retrying3 DefaultAlgorithm
           contextFirst cancelled 0%nat);
    try reflexivity.
  - discriminate.
  - vm_compute. discriminate.
Defined.

Lemma Execute_with_validated_delay_witness :
  exists t1,
    Execute contextFirst
      (WithFunction
         (WithAlgorithm (New 3)
            (Some (asAlgorithm amd64 zeroLog (Fixed Fixed100ms))))
         (Some alwaysRetry))
      background 0%nat =
      (Returns (Some ErrAttemptsExhausted),
       [EvWarmup; EvCall 0;
        EvWait 1; EvNewTimer (100 * time.Millisecond); EvStop; EvCall 1;
        EvWait 2; EvNewTimer (100 * time.Millisecond); EvStop; EvCall 2],
       t1) /\
    calls
      [EvWarmup; EvCall 0;
       EvWait 1; EvNewTimer (100 * time.Millisecond); EvStop; EvCall 1;
       EvWait 2; EvNewTimer (100 * time.Millisecond); EvStop; EvCall 2] =
    [0; 1; 2]%N.
Proof.
  apply (Execute_with_validated_delay amd64 zeroLog contextFirst background
           (WithFunction
              (WithAlgorithm (New 3)
                 (Some (asAlgorithm amd64 zeroLog (Fixed Fixed100ms))))
              (Some alwaysRetry))
           (Fixed Fixed100ms) alwaysRetry 0%nat).
  - intros ld. discriminate.
  - reflexivity.
  - reflexivity.
  - reflexivity.
  - reflexivity.
  - reflexivity.
  - vm_compute. discriminate.
  - reflexivity.
Defined.
